(** * Ecoleta: the points controller

    A shallow embedding of [server/src/controllers/PointsController.ts]
    (the handlers [index], [show], [create] and [update]) together with the
    part of the relational store, of the upload directory and of the
    JavaScript runtime that the handlers touch.

    Conventions.
    - A value that JavaScript may leave [undefined] (a form field, a query
      parameter, [request.file]) is an [option]; [None] is [undefined].
    - A nullable column is an [option]; [None] is SQL [NULL].
    - A handler is a function from the world before the request to an
      [outcome]: the world after it, what the client gets, and what became
      of the transaction the handler opened.
    - Text columns are compared exactly (no collation).
    - The query builder refuses a [where] on an [undefined] value and an
      [update] without any defined field, and leaves the [undefined] fields
      out of an [update]; the store refuses [NaN] for an integer column.
    - A transaction obtained from [knex.transaction()] stays open until
      [commit] or [rollback] is called on it; an error thrown in between
      ends the handler and calls neither.
    - A handler is one request run from its first statement to its last
      against one store: other requests that run between two of its
      [await]s are not part of the model. *)

From Stdlib Require Import ZArith List String Ascii Bool.
Import ListNotations.

Local Open Scope string_scope.
Local Open Scope list_scope.
Local Open Scope Z_scope.

Set Implicit Arguments.
Local Set Warnings "-register-all".

(** ** JavaScript values and the body of a response *)

Inductive jsval : Type :=
| JUndefined
| JNull
| JBool (b : bool)
| JNum (z : Z)
| JStr (s : string)
| JArr (l : list jsval)
| JObj (fs : list (string * jsval)).

(** [response.json(v)]: what [JSON.stringify] keeps of [v]. A property whose
    value is [undefined] is left out, an [undefined] array element becomes
    [null]. *)
Fixpoint to_json (v : jsval) : jsval :=
  match v with
  | JArr l =>
      JArr (map (fun x => match x with
                          | JUndefined => JNull
                          | _ => to_json x
                          end) l)
  | JObj fs =>
      JObj ((fix fields (fs : list (string * jsval)) : list (string * jsval) :=
               match fs with
               | [] => []
               | (_, JUndefined) :: rest => fields rest
               | (k, x) :: rest => (k, to_json x) :: fields rest
               end) fs)
  | _ => v
  end.

(** Property lookup [o.k] and the property write of an object literal
    ([{...o, k: v}]): an existing key keeps its place and takes the new value,
    a new key goes last. *)
Fixpoint get_prop (k : string) (fs : list (string * jsval)) : option jsval :=
  match fs with
  | [] => None
  | (k', v) :: rest => if String.eqb k k' then Some v else get_prop k rest
  end.

Fixpoint set_prop (k : string) (v : jsval) (fs : list (string * jsval))
  : list (string * jsval) :=
  match fs with
  | [] => [(k, v)]
  | (k', v') :: rest =>
      if String.eqb k k' then (k, v) :: rest else (k', v') :: set_prop k v rest
  end.

(** A form field or query parameter as a JavaScript value, and a nullable
    column as one. *)
Definition js_of_field (f : option string) : jsval :=
  match f with Some s => JStr s | None => JUndefined end.

Definition js_of_column (c : option string) : jsval :=
  match c with Some s => JStr s | None => JNull end.

(** Truthiness of a value that is a string or [undefined]. *)
Definition truthy (f : option string) : bool :=
  match f with
  | Some s => negb (String.eqb s "")
  | None => false
  end.

(** [String(v)] for such a value. *)
Definition String_ (f : option string) : string :=
  match f with Some s => s | None => "undefined" end.

Definition option_eqb (a b : option string) : bool :=
  match a, b with
  | Some x, Some y => String.eqb x y
  | None, None => true
  | _, _ => false
  end.

(** ** String primitives: [split] on one character and [trim] *)

Fixpoint split (sep : ascii) (s : string) : list string :=
  match s with
  | EmptyString => [EmptyString]
  | String c rest =>
      if Ascii.eqb c sep then EmptyString :: split sep rest
      else match split sep rest with
           | piece :: pieces => String c piece :: pieces
           | [] => [String c EmptyString]
           end
  end.

(** White space of the ASCII range: TAB, LF, VT, FF, CR and space. *)
Definition is_space (c : ascii) : bool :=
  let n := nat_of_ascii c in
  ((9 <=? n) && (n <=? 13))%nat || (n =? 32)%nat.

Fixpoint trimStart (s : string) : string :=
  match s with
  | EmptyString => EmptyString
  | String c rest => if is_space c then trimStart rest else s
  end.

Fixpoint trimEnd (s : string) : string :=
  match s with
  | EmptyString => EmptyString
  | String c rest =>
      let rest' := trimEnd rest in
      if is_space c && String.eqb rest' "" then EmptyString
      else String c rest'
  end.

Definition trim (s : string) : string := trimEnd (trimStart s).

(** ** Rows of the three tables *)

Module Point.
Record t : Type := mk {
  id : Z;
  image : option string;
  name : option string;
  email : option string;
  password : option string;
  whatsapp : option string;
  latitude : option string;
  longitude : option string;
  city : option string;
  uf : option string
}.

Definition eq_dec (p q : t) : {p = q} + {p <> q}.
Proof.
  repeat decide equality; try apply Z.eq_dec.
Defined.

(** The row as the JavaScript object the query builder returns. The two
    coordinates are carried as their decimal text. *)
Definition object (p : t) : list (string * jsval) :=
  [ ("id", JNum (id p));
    ("image", js_of_column (image p));
    ("name", js_of_column (name p));
    ("email", js_of_column (email p));
    ("password", js_of_column (password p));
    ("whatsapp", js_of_column (whatsapp p));
    ("latitude", js_of_column (latitude p));
    ("longitude", js_of_column (longitude p));
    ("city", js_of_column (city p));
    ("uf", js_of_column (uf p)) ].
End Point.

Module PointItem.
(** A row of [point_items]. *)
Record t : Type := mk { item_id : Z; point_id : Z }.

(** The object built by the handler before the insert: [item_id] is the
    result of [Number], which may be [NaN] ([None]). *)
Record obj : Type := mkObj { obj_item_id : option Z; obj_point_id : Z }.
End PointItem.

Module Item.
Record t : Type := mk { id : Z; title : string }.
End Item.

Record database : Type := mkDatabase {
  points : list Point.t;
  point_items : list PointItem.t;
  items : list Item.t;
  next_id : Z
}.

(** The world a handler runs in: the committed store and the files of
    [uploads/images]. *)
Record world : Type := mkWorld {
  db : database;
  uploads : list string
}.

(** ** Requests *)

Module Query.
(** [request.query] of [GET /points]. *)
Record t : Type := mk {
  city : option string;
  uf : option string;
  items : option string;
  ignoreItems : option string;
  returnItems : option string
}.
End Query.

Module Body.
(** [request.body] of [POST /points] and [PUT /points]. *)
Record t : Type := mk {
  originalemail : option string;
  name : option string;
  email : option string;
  password : option string;
  whatsapp : option string;
  latitude : option string;
  longitude : option string;
  city : option string;
  uf : option string;
  items : option string
}.
End Body.

Record file : Type := mkFile { filename : string }.

Record request : Type := mkRequest {
  body : Body.t;
  file_ : option file
}.

(** ** Outcomes *)

Inductive exn : Type :=
| TypeError (what : string)
| UndefinedBinding
| IllegalArguments
| EmptyUpdate
| ENOENT (path : string)
| StoreError.

Inductive result (A : Type) : Type :=
| Ok (a : A)
| Throw (e : exn).
Arguments Ok {A} a.
Arguments Throw {A} e.

(** What the client gets: a response, or nothing because the handler's
    promise was rejected. *)
Inductive reply : Type :=
| Respond (status : Z) (json : jsval)
| Uncaught (e : exn).

(** What became of the transaction of the handler. [LeftOpen d] is a
    transaction that was neither committed nor rolled back when the handler
    ended; [d] is the store as that transaction sees it. *)
Inductive trx_end : Type :=
| NoTrx
| Committed
| RolledBack
| LeftOpen (pending : database).

Record outcome : Type := mkOutcome {
  after : world;
  answer : reply;
  trx : trx_end
}.

Definition respond (w : world) (t : trx_end) (status : Z) (v : jsval) : outcome :=
  {| after := w; answer := Respond status (to_json v); trx := t |}.

Definition uncaught (w : world) (t : trx_end) (e : exn) : outcome :=
  {| after := w; answer := Uncaught e; trx := t |}.

(** ** The runtime and the store's constraints

    What the handlers take from outside the repository:
    - [Number] on the text of an identifier: [Some z] when the text denotes
      the integer [z], [None] when the result is [NaN] (identifiers are
      integers: a text that denotes a fraction is outside the model);
    - [bcrypt.hash(password, rounds)] and [generateToken({ id })], both
      opaque;
    - the constraints that the migrations declare (which columns are NOT
      NULL, which are unique, which reference another table). The migrations
      are not among the sources, so the constraints are a parameter: a write
      is accepted when the store it leads to satisfies them. *)
Class Runtime : Type := {
  Number : string -> option Z;
  bcrypt_hash : string -> Z -> string;
  generateToken : Z -> string;
  schema_ok : database -> bool
}.

Section Controller.

Context {runtime : Runtime}.

(** *** Statements of the query builder *)

(** [knex('points').where('email', email)] *)
Definition where_email (email : string) (d : database) : list Point.t :=
  filter (fun p => option_eqb (Point.email p) (Some email)) (points d).

(** [knex('points').where('id', id).first()] *)
Definition first_by_id (id : Z) (d : database) : option Point.t :=
  find (fun p => Point.id p =? id) (points d).

(** [knex('points').join('point_items', 'points.id', '=',
    'point_items.point_id')] *)
Definition join_point_items (d : database) : list (Point.t * PointItem.t) :=
  flat_map
    (fun p =>
       map (pair p)
           (filter (fun r => Point.id p =? PointItem.point_id r)
                   (point_items d)))
    (points d).

(** [knex('items').join('point_items', 'items.id', '=',
    'point_items.item_id').where('point_items.point_id', id).select(...)] *)
Definition items_of_point (select : Item.t -> list (string * jsval))
           (id : Z) (d : database) : list jsval :=
  flat_map
    (fun it =>
       flat_map
         (fun r =>
            if (Item.id it =? PointItem.item_id r)
               && (PointItem.point_id r =? id)
            then [JObj (select it)] else [])
         (point_items d))
    (items d).

Definition select_title (it : Item.t) : list (string * jsval) :=
  [("title", JStr (Item.title it))].

Definition select_title_id (it : Item.t) : list (string * jsval) :=
  [("title", JStr (Item.title it)); ("id", JNum (Item.id it))].

(** The values bound to an integer column: a [NaN] among them makes the
    store reject the statement. *)
Fixpoint bindings (l : list (option Z)) : option (list Z) :=
  match l with
  | [] => Some []
  | None :: _ => None
  | Some z :: rest =>
      match bindings rest with
      | Some zs => Some (z :: zs)
      | None => None
      end
  end.

(** [.whereIn('point_items.item_id', parsedItems)] *)
Definition whereIn_item_id (parsedItems : list (option Z))
           (query : list (Point.t * PointItem.t))
  : result (list (Point.t * PointItem.t)) :=
  match bindings parsedItems with
  | None => Throw StoreError
  | Some ids =>
      Ok (filter (fun r => existsb (Z.eqb (PointItem.item_id (snd r))) ids)
                 query)
  end.

(** [trx('points').insert(point)]: the row gets the next identifier, which
    is returned. A field left [undefined] takes the column default,
    [NULL]. *)
Definition insert_point (row : Z -> Point.t) (d : database)
  : result (database * Z) :=
  let id := next_id d in
  let d' := {| points := points d ++ [row id];
               point_items := point_items d;
               items := items d;
               next_id := id + 1 |} in
  if schema_ok d' then Ok (d', id) else Throw StoreError.

Fixpoint rows_of (l : list PointItem.obj) : option (list PointItem.t) :=
  match l with
  | [] => Some []
  | o :: rest =>
      match PointItem.obj_item_id o, rows_of rest with
      | Some z, Some rs =>
          Some (PointItem.mk z (PointItem.obj_point_id o) :: rs)
      | _, _ => None
      end
  end.

(** [trx('point_items').insert(pointItems)] *)
Definition insert_point_items (pointItems : list PointItem.obj) (d : database)
  : result database :=
  match rows_of pointItems with
  | None => Throw StoreError
  | Some rows =>
      let d' := {| points := points d;
                   point_items := point_items d ++ rows;
                   items := items d;
                   next_id := next_id d |} in
      if schema_ok d' then Ok d' else Throw StoreError
  end.

(** [trx('point_items').where('point_id', pointId).delete()] *)
Definition delete_point_items (pointId : Z) (d : database) : database :=
  {| points := points d;
     point_items :=
       filter (fun r => negb (PointItem.point_id r =? pointId))
              (point_items d);
     items := items d;
     next_id := next_id d |}.

(** The object given to [.update(point)]: a property that is [undefined]
    is not part of the statement, and a statement without any property is
    refused by the query builder. *)
Record patch : Type := mkPatch {
  patch_name : option string;
  patch_email : option string;
  patch_password : option string;
  patch_whatsapp : option string;
  patch_latitude : option string;
  patch_longitude : option string;
  patch_city : option string;
  patch_uf : option string;
  patch_image : option string
}.

Definition defined (f : option string) : bool :=
  match f with Some _ => true | None => false end.

Definition patch_is_empty (u : patch) : bool :=
  negb (defined (patch_name u) || defined (patch_email u)
        || defined (patch_password u) || defined (patch_whatsapp u)
        || defined (patch_latitude u) || defined (patch_longitude u)
        || defined (patch_city u) || defined (patch_uf u)
        || defined (patch_image u)).

Definition assign (new old : option string) : option string :=
  match new with Some v => Some v | None => old end.

Definition apply_patch (u : patch) (p : Point.t) : Point.t :=
  {| Point.id := Point.id p;
     Point.image := assign (patch_image u) (Point.image p);
     Point.name := assign (patch_name u) (Point.name p);
     Point.email := assign (patch_email u) (Point.email p);
     Point.password := assign (patch_password u) (Point.password p);
     Point.whatsapp := assign (patch_whatsapp u) (Point.whatsapp p);
     Point.latitude := assign (patch_latitude u) (Point.latitude p);
     Point.longitude := assign (patch_longitude u) (Point.longitude p);
     Point.city := assign (patch_city u) (Point.city p);
     Point.uf := assign (patch_uf u) (Point.uf p) |}.

(** [trx('points').where('id', pointId).update(point)] *)
Definition update_point (pointId : Z) (u : patch) (d : database)
  : result database :=
  if patch_is_empty u then Throw EmptyUpdate
  else
    let d' := {| points :=
                   map (fun p => if Point.id p =? pointId
                                 then apply_patch u p else p)
                       (points d);
                 point_items := point_items d;
                 items := items d;
                 next_id := next_id d |} in
    if schema_ok d' then Ok d' else Throw StoreError.

(** [fs.unlinkSync(path.join(..., 'uploads', 'images', image))] *)
Definition unlinkSync (image : option string) (files : list string)
  : result (list string) :=
  match image with
  | None => Throw (TypeError "path")
  | Some f =>
      if existsb (String.eqb f) files
      then Ok (filter (fun g => negb (String.eqb f g)) files)
      else Throw (ENOENT f)
  end.

(** *** Helpers shared by the handlers *)

Definition image_url (image : option string) : string :=
  ("http://10.0.0.103:3333/uploads/images/"
   ++ match image with Some s => s | None => "null" end)%string.

(** [items.split(',').map(item => Number(item.trim()))] *)
Definition parse_items (items : string) : list (option Z) :=
  map (fun item => Number (trim item)) (split "," items).

Definition to_point_items (pointId : Z) (parsed : list (option Z))
  : list PointItem.obj :=
  map (fun itemId => {| PointItem.obj_item_id := itemId;
                        PointItem.obj_point_id := pointId |}) parsed.

Definition email_already_registered : jsval :=
  JObj [ ("error", JBool true);
         ("information",
          JObj [ ("in", JStr "create_point");
                 ("code", JStr "EMAIL_ALREADY_REGISTERED");
                 ("message", JStr "Only one point per e-mail permited.") ]) ].

Definition with_db (w : world) (d : database) : world :=
  {| db := d; uploads := uploads w |}.

Definition with_uploads (w : world) (files : list string) : world :=
  {| db := db w; uploads := files |}.

(** *** [index]: [GET /points]

    [point.id] of a serialized point is the [id] of its row, so the second
    [map] runs over the rows. *)

(** The rows bound to [points] by [const points = await query]. *)
Definition index_points (d : database) (q : Query.t) : result (list Point.t) :=
  let query := join_point_items d in
  let filtered :=
    if negb (truthy (Query.ignoreItems q)) then
      let parsedItems := parse_items (String_ (Query.items q)) in
      whereIn_item_id parsedItems query
    else Ok query in
  match filtered with
  | Throw e => Throw e
  | Ok query =>
      let query :=
        filter (fun r => option_eqb (Point.city (fst r))
                                    (Some (String_ (Query.city q)))) query in
      let query :=
        filter (fun r => option_eqb (Point.uf (fst r))
                                    (Some (String_ (Query.uf q)))) query in
      Ok (nodup Point.eq_dec (map fst query))
  end.

(** [{ ...point, image_url: `http://.../${point.image}` }] *)
Definition serialize (point : Point.t) : jsval :=
  JObj (set_prop "image_url" (JStr (image_url (Point.image point)))
                 (Point.object point)).

Definition index (w : world) (q : Query.t) : outcome :=
  match index_points (db w) q with
  | Throw e => uncaught w NoTrx e
  | Ok points =>
      let serializedPoints :=
        if truthy (Query.returnItems q) then
          map (fun point =>
                 let fetchedItems :=
                   items_of_point select_title (Point.id point) (db w) in
                 JObj [ ("point", serialize point);
                        ("items", JArr fetchedItems) ])
              points
        else map serialize points in
      respond w NoTrx 200 (JArr serializedPoints)
  end.

(** *** [show]: [GET /points/:id]

    The route parameter is given as the integer that the store compares the
    key with. *)

Definition show (w : world) (id : Z) : outcome :=
  match first_by_id id (db w) with
  | None => respond w NoTrx 400 (JObj [("message", JStr "point not found.")])
  | Some point =>
      let serializedPoint := serialize point in
      let items := items_of_point select_title id (db w) in
      respond w NoTrx 200
              (JObj [ ("point", serializedPoint); ("items", JArr items) ])
  end.

(** *** [create]: [POST /points] *)

Definition create (w : world) (request : request) : outcome :=
  let b := body request in
  match Body.email b with
  | None => uncaught w NoTrx UndefinedBinding
  | Some email =>
  let hasSameEmail := where_email email (db w) in
  if (0 <? Z.of_nat (List.length hasSameEmail)) then
    respond w NoTrx 400 email_already_registered
  else
  match Body.password b with
  | None => uncaught w NoTrx IllegalArguments
  | Some password =>
  let passwordHash := bcrypt_hash password 10 in
  (* const trx = await knex.transaction() *)
  let trx0 := db w in
  match file_ request with
  | None => uncaught w (LeftOpen trx0) (TypeError "filename")
  | Some f =>
  let point (id : Z) :=
    {| Point.id := id;
       Point.image := Some (filename f);
       Point.name := Body.name b;
       Point.email := Some email;
       Point.password := Some passwordHash;
       Point.whatsapp := Body.whatsapp b;
       Point.latitude := Body.latitude b;
       Point.longitude := Body.longitude b;
       Point.city := Body.city b;
       Point.uf := Body.uf b |} in
  match insert_point point trx0 with
  | Throw e => uncaught w (LeftOpen trx0) e
  | Ok (trx1, pointId) =>
  match Body.items b with
  | None => uncaught w (LeftOpen trx1) (TypeError "split")
  | Some items =>
  let pointItems := to_point_items pointId (parse_items items) in
  match insert_point_items pointItems trx1 with
  | Throw e => uncaught w (LeftOpen trx1) e
  | Ok trx2 =>
  (* await trx.commit() *)
  let token := generateToken pointId in
  respond (with_db w trx2) Committed 200
    (JObj [ ("point",
             JObj (set_prop "password" JUndefined
                     [ ("id", JNum pointId);
                       ("image", JStr (filename f));
                       ("name", js_of_field (Body.name b));
                       ("email", JStr email);
                       ("password", JStr passwordHash);
                       ("whatsapp", js_of_field (Body.whatsapp b));
                       ("latitude", js_of_field (Body.latitude b));
                       ("longitude", js_of_field (Body.longitude b));
                       ("city", js_of_field (Body.city b));
                       ("uf", js_of_field (Body.uf b)) ]));
            ("token", JStr token) ])
  end end end end end end.

(** *** [update]: [PUT /points] *)

Definition update (w : world) (request : request) : outcome :=
  let b := body request in
  let email := Body.email b in
  let originalemail := Body.originalemail b in
  let collides :=
    match email with
    | Some e =>
        truthy email && negb (option_eqb email originalemail)
        && (0 <? Z.of_nat (List.length (where_email e (db w))))
    | None => false
    end in
  if collides then respond w NoTrx 400 email_already_registered
  else
  let passwordHash :=
    match Body.password b with
    | Some password =>
        if truthy (Body.password b) then Some (bcrypt_hash password 10)
        else None
    | None => None
    end in
  (* const trx = await knex.transaction() *)
  let trx0 := db w in
  match originalemail with
  | None => uncaught w (LeftOpen trx0) UndefinedBinding
  | Some original =>
  match hd_error (where_email original trx0) with
  | None =>
      (* trx.rollback() *)
      respond w RolledBack 400 (JObj [("message", JStr "raw point not found.")])
  | Some rawPoint =>
  let pointId := Point.id rawPoint in
  let released :=
    match file_ request with
    | Some f =>
        match unlinkSync (Point.image rawPoint) (uploads w) with
        | Ok files => Ok (files, Some (filename f))
        | Throw e => Throw e
        end
    | None => Ok (uploads w, None)
    end in
  match released with
  | Throw e => uncaught w (LeftOpen trx0) e
  | Ok (files, image) =>
  let w := with_uploads w files in
  let point :=
    {| patch_name := Body.name b;
       patch_email := email;
       patch_password := passwordHash;
       patch_whatsapp := Body.whatsapp b;
       patch_latitude := Body.latitude b;
       patch_longitude := Body.longitude b;
       patch_city := Body.city b;
       patch_uf := Body.uf b;
       patch_image := image |} in
  match update_point pointId point trx0 with
  | Throw e => uncaught w (LeftOpen trx0) e
  | Ok trx1 =>
  let replaced :=
    match Body.items b with
    | Some items =>
        if truthy (Body.items b) then
          let trx2 := delete_point_items pointId trx1 in
          let pointItems := to_point_items pointId (parse_items items) in
          match insert_point_items pointItems trx2 with
          | Ok trx3 => inl trx3
          | Throw e => inr (trx2, e)
          end
        else inl trx1
    | None => inl trx1
    end in
  match replaced with
  | inr (trx2, e) => uncaught w (LeftOpen trx2) e
  | inl trx3 =>
  match first_by_id pointId trx3 with
  | None => uncaught w (LeftOpen trx3) (TypeError "image")
  | Some outputPoint =>
  let serializedOutputPoint :=
    JObj (set_prop "image_url" (JStr (image_url (Point.image outputPoint)))
            (set_prop "password" JUndefined (Point.object outputPoint))) in
  let outputItems := items_of_point select_title_id pointId trx3 in
  (* await trx.commit() *)
  respond (with_db w trx3) Committed 200
    (JObj [ ("point", serializedOutputPoint);
            ("items", JArr outputItems) ])
  end end end end end end.

End Controller.

(** ** Derived notions used in the statements *)

Section Notions.

Context {runtime : Runtime}.

(** One element of the array that [index] answers with. *)
Definition decorate (d : database) (q : Query.t) (point : Point.t) : jsval :=
  if truthy (Query.returnItems q) then
    JObj [ ("point", serialize point);
           ("items", JArr (items_of_point select_title (Point.id point) d)) ]
  else serialize point.

(** The item identifiers associated with a point. *)
Definition items_linked_to (pointId : Z) (d : database) : list Z :=
  map PointItem.item_id
      (filter (fun r => PointItem.point_id r =? pointId) (point_items d)).

(** The point an update is aimed at: the first row whose e-mail is
    [originalemail]. *)
Definition target (d : database) (b : Body.t) : option Point.t :=
  match Body.originalemail b with
  | Some original => hd_error (where_email original d)
  | None => None
  end.

(** A file that no stored point refers to, and a stored reference to a file
    that is not there. *)
Definition orphaned (w : world) (f : string) : Prop :=
  In f (uploads w)
  /\ forall p, In p (points (db w)) -> Point.image p <> Some f.

Definition dangling (w : world) (p : Point.t) : Prop :=
  In p (points (db w))
  /\ exists f, Point.image p = Some f /\ ~ In f (uploads w).

(** The listing as the specification words it: the points of the city and
    region, restricted by the item filter only when [ignoreItems] is not
    set. *)
Definition listing_as_specified (d : database) (q : Query.t) : Prop :=
  forall rows, index_points d q = Ok rows ->
  forall p,
    In p rows <->
    In p (points d)
    /\ Point.city p = Some (String_ (Query.city q))
    /\ Point.uf p = Some (String_ (Query.uf q))
    /\ (truthy (Query.ignoreItems q) = false ->
        exists z, In z (items_linked_to (Point.id p) d)
                  /\ In (Some z) (parse_items (String_ (Query.items q)))).

(** The association rows of a create as the specification words them: one
    row per distinct identifier. *)
Definition one_row_per_distinct_item (w : world) (request : request) : Prop :=
  forall json, answer (create w request) = Respond 200 json ->
  NoDup (items_linked_to (next_id (db w)) (db (after (create w request)))).

End Notions.

(** ** A runtime to run the handlers on examples *)

Fixpoint digits (acc : Z) (s : string) : option Z :=
  match s with
  | EmptyString => Some acc
  | String c rest =>
      let n := Z.of_nat (nat_of_ascii c) in
      if (48 <=? n) && (n <=? 57) then digits (10 * acc + (n - 48)) rest
      else None
  end.

(** [Number] on decimal integer literals: white space around the literal is
    dropped, the empty text is 0, an optional sign may come first. The other
    forms of numeric literal (fraction, exponent, radix prefix) are not
    covered and are answered like a text that is no number, with [NaN]; the
    examples below use decimal literals and the text [x] only. *)
Definition Number_decimal (s : string) : option Z :=
  match trim s with
  | EmptyString => Some 0
  | String "-" (String _ _ as rest) => option_map Z.opp (digits 0 rest)
  | String "+" (String _ _ as rest) => digits 0 rest
  | literal => digits 0 literal
  end.

(** A store without constraints, a hash that tags the credential and a token
    that names the point. *)
Definition node : Runtime :=
  {| Number := Number_decimal;
     bcrypt_hash := fun password _ => ("$2a$10$" ++ password)%string;
     generateToken := fun _ => "jwt";
     schema_ok := fun _ => true |}.

Definition paper : Item.t := Item.mk 1 "Papeis e Papelao".
Definition lamps : Item.t := Item.mk 2 "Lampadas".
Definition oil : Item.t := Item.mk 4 "Oleo de Cozinha".

Definition market (hash : string) : Point.t :=
  {| Point.id := 1;
     Point.image := Some "old.png";
     Point.name := Some "Mercado";
     Point.email := Some "a@x.com";
     Point.password := Some hash;
     Point.whatsapp := Some "62999990000";
     Point.latitude := Some "-16.33";
     Point.longitude := Some "-48.93";
     Point.city := Some "Anapolis";
     Point.uf := Some "GO" |}.

Definition empty_world : world :=
  {| db := {| points := []; point_items := []; items := [paper; lamps; oil];
              next_id := 1 |};
     uploads := ["new.png"] |}.

(** One registered point that accepts the items 1 and 2. *)
Definition town (hash : string) : world :=
  {| db := {| points := [market hash];
              point_items := [PointItem.mk 1 1; PointItem.mk 2 1];
              items := [paper; lamps; oil];
              next_id := 2 |};
     uploads := ["old.png"; "new.png"] |}.

(** The same point without any association row. *)
Definition town_without_items : world :=
  {| db := {| points := [market "h"]; point_items := [];
              items := [paper; lamps; oil]; next_id := 2 |};
     uploads := ["old.png"] |}.

Definition in_anapolis (items ignoreItems : option string) : Query.t :=
  {| Query.city := Some "Anapolis"; Query.uf := Some "GO";
     Query.items := items; Query.ignoreItems := ignoreItems;
     Query.returnItems := None |}.

(** [POST /points] for a second point. *)
Definition registration (email : string) (items : option string)
           (upload : option file) : request :=
  {| body := {| Body.originalemail := None;
                Body.name := Some "Feira";
                Body.email := Some email;
                Body.password := Some "secret";
                Body.whatsapp := Some "62988880000";
                Body.latitude := Some "-16.30";
                Body.longitude := Some "-48.90";
                Body.city := Some "Anapolis";
                Body.uf := Some "GO";
                Body.items := items |};
     file_ := upload |}.

(** [PUT /points] for the point of [town]. *)
Definition change (email password items : option string)
           (upload : option file) : request :=
  {| body := {| Body.originalemail := Some "a@x.com";
                Body.name := Some "Mercado Novo";
                Body.email := email;
                Body.password := password;
                Body.whatsapp := None;
                Body.latitude := None;
                Body.longitude := None;
                Body.city := None;
                Body.uf := None;
                Body.items := items |};
     file_ := upload |}.

(** ** Notions used in the further properties *)

Section FurtherNotions.

Context {runtime : Runtime}.

(** The e-mails in use: those of the rows whose e-mail is not [NULL]. *)
Definition emails_of (ps : list Point.t) : list string :=
  flat_map (fun p => match Point.email p with
                     | Some e => [e]
                     | None => []
                     end) ps.

(** The [point] object of [update] for a request and the image it records:
    the fields as they come, the hash of a non-empty password. *)
Definition patch_of (request : request) (image : option string) : patch :=
  let b := body request in
  {| patch_name := Body.name b;
     patch_email := Body.email b;
     patch_password :=
       if truthy (Body.password b)
       then option_map (fun password => bcrypt_hash password 10)
                       (Body.password b)
       else None;
     patch_whatsapp := Body.whatsapp b;
     patch_latitude := Body.latitude b;
     patch_longitude := Body.longitude b;
     patch_city := Body.city b;
     patch_uf := Body.uf b;
     patch_image := image |}.

(** The image that an update records: the name of the uploaded file, if
    any. *)
Definition new_image (request : request) : option string :=
  option_map filename (file_ request).

(** A query with other [items], and a query with [ignoreItems] set. *)
Definition with_items (q : Query.t) (items : option string) : Query.t :=
  {| Query.city := Query.city q;
     Query.uf := Query.uf q;
     Query.items := items;
     Query.ignoreItems := Query.ignoreItems q;
     Query.returnItems := Query.returnItems q |}.

Definition ignoring_items (q : Query.t) : Query.t :=
  {| Query.city := Query.city q;
     Query.uf := Query.uf q;
     Query.items := Query.items q;
     Query.ignoreItems := Some "true";
     Query.returnItems := Query.returnItems q |}.

(** The two answers of a handler that found nothing. *)
Definition point_not_found : jsval :=
  JObj [("message", JStr "point not found.")].


End FurtherNotions.

(** A second point of the same town, for the examples with two points. *)
Definition fair : Point.t :=
  {| Point.id := 2;
     Point.image := Some "fair.png";
     Point.name := Some "Feira";
     Point.email := Some "b@x.com";
     Point.password := Some "k";
     Point.whatsapp := Some "62988880000";
     Point.latitude := Some "-16.30";
     Point.longitude := Some "-48.90";
     Point.city := Some "Anapolis";
     Point.uf := Some "GO" |}.

Definition two_points : world :=
  {| db := {| points := [market "h"; fair];
              point_items := [PointItem.mk 1 1; PointItem.mk 2 1;
                              PointItem.mk 4 2];
              items := [paper; lamps; oil];
              next_id := 3 |};
     uploads := ["old.png"; "fair.png"; "new.png"] |}.

(** The row that [registration email] creates in [town]. *)
Definition registered (email : string) : Point.t :=
  {| Point.id := 2;
     Point.image := Some "new.png";
     Point.name := Some "Feira";
     Point.email := Some email;
     Point.password := Some "$2a$10$secret";
     Point.whatsapp := Some "62988880000";
     Point.latitude := Some "-16.30";
     Point.longitude := Some "-48.90";
     Point.city := Some "Anapolis";
     Point.uf := Some "GO" |}.

Definition upload : option file := Some (mkFile "new.png").

(** [PUT /points] for the point of [town] with [originalemail] and [items]
    and nothing else. *)
Definition items_only (items : string) : request :=
  {| body := {| Body.originalemail := Some "a@x.com";
                Body.name := None;
                Body.email := None;
                Body.password := None;
                Body.whatsapp := None;
                Body.latitude := None;
                Body.longitude := None;
                Body.city := None;
                Body.uf := None;
                Body.items := Some items |};
     file_ := None |}.


(** * Properties *)

(** ** Lists, options and bindings *)

Lemma option_eqb_Some (a : option string) (s : string) :
  option_eqb a (Some s) = true <-> a = Some s.
Proof.
  destruct a as [x|]; simpl.
  - rewrite String.eqb_eq. split; congruence.
  - split; discriminate.
Qed.

Lemma split_nonempty (sep : ascii) (s : string) : split sep s <> [].
Proof.
  induction s as [|c rest IH]; simpl; [discriminate|].
  destruct (Ascii.eqb c sep); [discriminate|].
  destruct (split sep rest); [contradiction | discriminate].
Qed.

(** Case analysis on the next [match] of a handler. *)
Ltac destruct_match_in H :=
  match type of H with
  | context [match ?x with _ => _ end] =>
      destruct x eqn:?; cbn [answer after trx respond uncaught] in H;
      try discriminate H
  end.

Ltac destruct_match :=
  match goal with
  | |- context [match ?x with _ => _ end] =>
      destruct x eqn:?; cbn [answer after trx respond uncaught db with_db
                             with_uploads uploads]
  end.

Section Properties.

Context {runtime : Runtime}.

Lemma bindings_In (l : list (option Z)) (ids : list Z) :
  bindings l = Some ids -> forall z, In z ids <-> In (Some z) l.
Proof.
  revert ids. induction l as [|o rest IH]; simpl; intros ids H z.
  - inversion H; subst. reflexivity.
  - destruct o as [y|]; [|discriminate].
    destruct (bindings rest) as [zs|]; [|discriminate].
    inversion H; subst; simpl.
    rewrite (IH zs eq_refl z). split; intros [E|E]; auto; left; congruence.
Qed.

Lemma bindings_map_Some (l : list (option Z)) (ids : list Z) :
  bindings l = Some ids -> l = map Some ids.
Proof.
  revert ids. induction l as [|o rest IH]; simpl; intros ids H.
  - inversion H; reflexivity.
  - destruct o as [y|]; [|discriminate].
    destruct (bindings rest) as [zs|]; [|discriminate].
    inversion H; subst; simpl. rewrite (IH zs eq_refl). reflexivity.
Qed.

Lemma rows_of_to_point_items (pointId : Z) (parsed : list (option Z)) :
  rows_of (to_point_items pointId parsed)
  = option_map (map (fun z => PointItem.mk z pointId)) (bindings parsed).
Proof.
  unfold to_point_items.
  induction parsed as [|o rest IH]; [reflexivity|].
  cbn [map rows_of bindings PointItem.obj_item_id PointItem.obj_point_id].
  destruct o as [z|]; [|reflexivity].
  rewrite IH. destruct (bindings rest); reflexivity.
Qed.

Lemma In_join_point_items (d : database) (p : Point.t) (r : PointItem.t) :
  In (p, r) (join_point_items d)
  <-> In p (points d) /\ In r (point_items d)
      /\ PointItem.point_id r = Point.id p.
Proof.
  unfold join_point_items. rewrite in_flat_map. split.
  - intros (p' & Hp & H). apply in_map_iff in H.
    destruct H as (r' & E & H). inversion E; subst.
    apply filter_In in H. destruct H as [Hr H].
    apply Z.eqb_eq in H. auto.
  - intros (Hp & Hr & E). exists p. split; [assumption|].
    apply in_map_iff. exists r. split; [reflexivity|].
    apply filter_In. split; [assumption|]. apply Z.eqb_eq. auto.
Qed.

Lemma In_items_linked_to (d : database) (pointId z : Z) :
  In z (items_linked_to pointId d)
  <-> In (PointItem.mk z pointId) (point_items d).
Proof.
  unfold items_linked_to. rewrite in_map_iff. split.
  - intros (r & E & H). apply filter_In in H. destruct H as [H Hid].
    apply Z.eqb_eq in Hid. destruct r as [i k]; simpl in *; subst. assumption.
  - intros H. exists (PointItem.mk z pointId). split; [reflexivity|].
    apply filter_In. split; [assumption|]. apply Z.eqb_refl.
Qed.

(** ** The listing *)

(** The rows of a listing: no row twice, and a point is listed exactly when
    it is stored, lies in the city and region asked for, and has an
    association row, which must carry one of the items asked for unless
    [ignoreItems] is set. *)
Lemma index_points_rows (d : database) (q : Query.t) (rows : list Point.t) :
  index_points d q = Ok rows ->
  NoDup rows
  /\ forall p,
      In p rows <->
      In p (points d)
      /\ Point.city p = Some (String_ (Query.city q))
      /\ Point.uf p = Some (String_ (Query.uf q))
      /\ exists z, In z (items_linked_to (Point.id p) d)
                   /\ (truthy (Query.ignoreItems q) = false ->
                       In (Some z) (parse_items (String_ (Query.items q)))).
Proof.
  unfold index_points, whereIn_item_id. intros H.
  destruct (truthy (Query.ignoreItems q)) eqn:Hig; simpl in H.
  - inversion H; subst; clear H. split; [apply NoDup_nodup|].
    intros p. rewrite nodup_In, in_map_iff. split.
    + intros ([p' r] & E & Hin). simpl in E; subst p'.
      apply filter_In in Hin. destruct Hin as [Hin Huf].
      apply filter_In in Hin. destruct Hin as [Hin Hcity].
      apply In_join_point_items in Hin. destruct Hin as (Hp & Hr & Hid).
      simpl in *. apply option_eqb_Some in Huf, Hcity.
      repeat split; try assumption.
      exists (PointItem.item_id r). split; [|discriminate].
      apply In_items_linked_to. destruct r; simpl in *; subst. assumption.
    + intros (Hp & Hcity & Huf & z & Hz & _).
      apply In_items_linked_to in Hz.
      exists (p, PointItem.mk z (Point.id p)). split; [reflexivity|].
      apply filter_In. split; [|apply option_eqb_Some; assumption].
      apply filter_In. split; [|apply option_eqb_Some; assumption].
      apply In_join_point_items. auto.
  - destruct (bindings (parse_items (String_ (Query.items q)))) as [ids|] eqn:Hb;
      [|discriminate].
    inversion H; subst; clear H. split; [apply NoDup_nodup|].
    intros p. rewrite nodup_In, in_map_iff. split.
    + intros ([p' r] & E & Hin). simpl in E; subst p'.
      apply filter_In in Hin. destruct Hin as [Hin Huf].
      apply filter_In in Hin. destruct Hin as [Hin Hcity].
      apply filter_In in Hin. destruct Hin as [Hin Hitem].
      apply In_join_point_items in Hin. destruct Hin as (Hp & Hr & Hid).
      simpl in *. apply option_eqb_Some in Huf, Hcity.
      apply existsb_exists in Hitem. destruct Hitem as (z & Hz & E).
      apply Z.eqb_eq in E. subst z.
      repeat split; try assumption.
      exists (PointItem.item_id r). split.
      * apply In_items_linked_to. destruct r; simpl in *; subst. assumption.
      * intros _. apply (bindings_In _ Hb). assumption.
    + intros (Hp & Hcity & Huf & z & Hz & Hsel).
      apply In_items_linked_to in Hz.
      exists (p, PointItem.mk z (Point.id p)). split; [reflexivity|].
      apply filter_In. split; [|apply option_eqb_Some; assumption].
      apply filter_In. split; [|apply option_eqb_Some; assumption].
      apply filter_In. split; [apply In_join_point_items; auto|].
      simpl. apply existsb_exists. exists z. split; [|apply Z.eqb_refl].
      apply (bindings_In _ Hb). auto.
Qed.

(** The store answers a listing whenever no identifier asked for is [NaN],
    and always when [ignoreItems] is set. *)
Lemma index_points_answers (d : database) (q : Query.t) :
  truthy (Query.ignoreItems q) = true
  \/ bindings (parse_items (String_ (Query.items q))) <> None ->
  exists rows, index_points d q = Ok rows.
Proof.
  unfold index_points, whereIn_item_id. intros [H|H].
  - rewrite H. simpl. eauto.
  - destruct (truthy (Query.ignoreItems q)); simpl; [eauto|].
    destruct (bindings (parse_items (String_ (Query.items q))));
      [eauto | contradiction].
Qed.

(** What [index] answers with: the rows, decorated one by one. *)
Lemma index_answer (w : world) (q : Query.t) (rows : list Point.t) :
  index_points (db w) q = Ok rows ->
  index w q = respond w NoTrx 200 (JArr (map (decorate (db w) q) rows)).
Proof.
  unfold index, decorate. intros ->.
  destruct (truthy (Query.returnItems q)); reflexivity.
Qed.


(** ** The statements of the store *)

Lemma update_point_ok (pointId : Z) (u : patch) (d d' : database) :
  update_point pointId u d = Ok d' ->
  points d' = map (fun p => if Point.id p =? pointId
                            then apply_patch u p else p) (points d)
  /\ point_items d' = point_items d
  /\ items d' = items d.
Proof.
  unfold update_point. destruct (patch_is_empty u); [discriminate|].
  destruct (schema_ok _); [|discriminate].
  intros H. inversion H; subst; simpl. auto.
Qed.

Lemma insert_point_items_ok (objs : list PointItem.obj) (d d' : database) :
  insert_point_items objs d = Ok d' ->
  exists rows, rows_of objs = Some rows
               /\ points d' = points d
               /\ point_items d' = point_items d ++ rows
               /\ items d' = items d.
Proof.
  unfold insert_point_items. destruct (rows_of objs) as [rows|]; [|discriminate].
  destruct (schema_ok _); [|discriminate].
  intros H. inversion H; subst; simpl. eauto.
Qed.

Lemma insert_point_ok (row : Z -> Point.t) (d d' : database) (id : Z) :
  insert_point row d = Ok (d', id) ->
  id = next_id d
  /\ points d' = points d ++ [row id]
  /\ point_items d' = point_items d
  /\ items d' = items d.
Proof.
  unfold insert_point. destruct (schema_ok _); [|discriminate].
  intros H. inversion H; subst; simpl. auto.
Qed.

(** ** The handlers, case by case *)

(** What a successful update did: it found its target, updated that row
    with the fields of the request, and replaced the association rows of the
    target when [items] was given. *)
Lemma update_success (w : world) (request : request) (json : jsval) :
  answer (update w request) = Respond 200 json ->
  exists rawPoint u trx1,
    target (db w) (body request) = Some rawPoint
    /\ patch_password u
       = (if truthy (Body.password (body request))
          then option_map (fun p => bcrypt_hash p 10)
                          (Body.password (body request))
          else None)
    /\ update_point (Point.id rawPoint) u (db w) = Ok trx1
    /\ points (db (after (update w request))) = points trx1
    /\ trx (update w request) = Committed
    /\ if truthy (Body.items (body request)) then
         exists ids,
           bindings (parse_items (String_ (Body.items (body request))))
           = Some ids
           /\ point_items (db (after (update w request)))
              = filter (fun r => negb (PointItem.point_id r
                                       =? Point.id rawPoint))
                       (point_items (db w))
                ++ map (fun z => PointItem.mk z (Point.id rawPoint)) ids
       else point_items (db (after (update w request))) = point_items (db w).
Proof.
  unfold update, target. cbv zeta. intros H.
  repeat destruct_match_in H.
  match goal with
  | U : update_point _ ?u _ = Ok ?d |- _ =>
      exists t, u, d; destruct (update_point_ok _ _ _ U) as (Up & Ui & _)
  end.
  cbn [answer after trx respond uncaught db with_db patch_password].
  split; [reflexivity|].
  split; [destruct (Body.password (body request)), (truthy _); reflexivity|].
  split; [assumption|].
  destruct (Body.items (body request)) as [its|] eqn:Hits; cbn [String_].
  - destruct (truthy (Some its)).
    + destruct (insert_point_items _ _) as [trx3|] eqn:Hins; [|discriminate].
      match goal with E : inl _ = inl _ |- _ => inversion E; subst; clear E end.
      destruct (insert_point_items_ok _ _ Hins) as (rows & Hrows & Hp & Hi & _).
      rewrite rows_of_to_point_items in Hrows.
      destruct (bindings (parse_items its)) as [ids|]; [|discriminate].
      simpl in Hrows. inversion Hrows; subst; clear Hrows.
      split; [rewrite Hp; reflexivity|]. split; [reflexivity|].
      exists ids. split; [reflexivity|].
      rewrite Hi. simpl. rewrite Ui. reflexivity.
    + match goal with E : inl _ = inl _ |- _ => inversion E; subst; clear E end.
      auto.
  - match goal with E : inl _ = inl _ |- _ => inversion E; subst; clear E end.
    simpl. auto.
Qed.

(** An update that does not answer 200 leaves the committed store as it
    was. *)
Lemma update_store (w : world) (request : request) :
  db (after (update w request)) = db w
  \/ exists json, answer (update w request) = Respond 200 json.
Proof.
  unfold update. cbv zeta.
  repeat destruct_match; try (left; reflexivity).
  all: right; eexists; reflexivity.
Qed.

(** What a successful create did: the e-mail was free, a file came with the
    request, and the point row and one association row per parsed identifier
    were committed together. *)
Lemma create_success (w : world) (request : request) (json : jsval) :
  answer (create w request) = Respond 200 json ->
  exists email password f its ids,
    Body.email (body request) = Some email
    /\ where_email email (db w) = []
    /\ Body.password (body request) = Some password
    /\ file_ request = Some f
    /\ Body.items (body request) = Some its
    /\ bindings (parse_items its) = Some ids
    /\ trx (create w request) = Committed
    /\ points (db (after (create w request)))
       = points (db w)
         ++ [ {| Point.id := next_id (db w);
                 Point.image := Some (filename f);
                 Point.name := Body.name (body request);
                 Point.email := Some email;
                 Point.password := Some (bcrypt_hash password 10);
                 Point.whatsapp := Body.whatsapp (body request);
                 Point.latitude := Body.latitude (body request);
                 Point.longitude := Body.longitude (body request);
                 Point.city := Body.city (body request);
                 Point.uf := Body.uf (body request) |} ]
    /\ point_items (db (after (create w request)))
       = point_items (db w)
         ++ map (fun z => PointItem.mk z (next_id (db w))) ids.
Proof.
  unfold create. cbv zeta. intros H.
  repeat destruct_match_in H.
  match goal with
  | I : insert_point _ _ = Ok _ |- _ =>
      destruct (insert_point_ok _ _ I) as (Hid & Hp & Hi & _)
  end.
  match goal with
  | I : insert_point_items _ _ = Ok _ |- _ =>
      destruct (insert_point_items_ok _ _ I) as (rows & Hrows & Hp' & Hi' & _)
  end.
  rewrite rows_of_to_point_items in Hrows.
  destruct (bindings (parse_items _)) as [ids|] eqn:Hb; [|discriminate].
  simpl in Hrows. inversion Hrows; subst; clear Hrows.
  match goal with
  | E : (0 <? Z.of_nat (List.length ?l)) = false |- _ =>
      assert (Hfree : l = [])
        by (destruct l; [reflexivity | simpl in E; discriminate E])
  end.
  do 5 eexists.
  cbn [answer after trx respond uncaught db with_db].
  repeat (split; [reflexivity || eassumption|]).
  split.
  - rewrite Hp', Hp. reflexivity.
  - rewrite Hi', Hi. reflexivity.
Qed.

(** A create that does not answer 200 leaves the world as it was, and its
    transaction, if it opened one, is still open. *)
Lemma create_failure (w : world) (request : request) :
  (exists json, answer (create w request) = Respond 200 json)
  \/ after (create w request) = w
     /\ (trx (create w request) = NoTrx
         \/ exists pending, trx (create w request) = LeftOpen pending).
Proof.
  unfold create. cbv zeta.
  repeat destruct_match; eauto.
Qed.

(** ** Claims *)

(** C3. A create whose e-mail already belongs to a stored point is answered
    with status 400 and the code EMAIL_ALREADY_REGISTERED; the world is left
    as it was and no transaction is opened, so no point row and no
    association row is written. *)
Theorem create_rejects_registered_email
        (w : world) (request : request) (email : string) (p : Point.t) :
  Body.email (body request) = Some email ->
  In p (points (db w)) ->
  Point.email p = Some email ->
  create w request
  = {| after := w;
       answer :=
         Respond 400
           (JObj [ ("error", JBool true);
                   ("information",
                    JObj [ ("in", JStr "create_point");
                           ("code", JStr "EMAIL_ALREADY_REGISTERED");
                           ("message",
                            JStr "Only one point per e-mail permited.") ]) ]);
       trx := NoTrx |}.
Proof.
  intros He Hin Hp. unfold create. cbv zeta. rewrite He.
  assert (Hfound : In p (where_email email (db w))).
  { apply filter_In. split; [assumption|]. apply option_eqb_Some. assumption. }
  destruct (where_email email (db w)) as [|x l]; [contradiction|].
  reflexivity.
Qed.

Lemma target_stored (d : database) (b : Body.t) (rawPoint : Point.t) :
  target d b = Some rawPoint -> In rawPoint (points d).
Proof.
  unfold target, where_email.
  destruct (Body.originalemail b) as [original|]; [|discriminate].
  destruct (filter _ (points d)) as [|x l] eqn:E; [discriminate|].
  simpl. intros H. inversion H; subst.
  assert (Hin : In rawPoint (rawPoint :: l)) by (left; reflexivity).
  rewrite <- E in Hin. apply filter_In in Hin. tauto.
Qed.

Lemma linked_after_replace (pointId : Z) (old : list PointItem.t) (ids : list Z) :
  map PointItem.item_id
      (filter (fun r => PointItem.point_id r =? pointId)
              (filter (fun r => negb (PointItem.point_id r =? pointId)) old
               ++ map (fun z => PointItem.mk z pointId) ids))
  = ids.
Proof.
  rewrite filter_app, map_app.
  assert (Hold : filter (fun r => PointItem.point_id r =? pointId)
                        (filter (fun r => negb (PointItem.point_id r =? pointId))
                                old) = []).
  { induction old as [|r rest IH]; simpl; [reflexivity|].
    destruct (PointItem.point_id r =? pointId) eqn:E; simpl; [assumption|].
    rewrite E. assumption. }
  rewrite Hold. simpl.
  induction ids as [|z rest IH]; simpl; [reflexivity|].
  rewrite Z.eqb_refl. simpl. rewrite IH. reflexivity.
Qed.

Lemma linked_elsewhere_after_replace
      (pointId other : Z) (old : list PointItem.t) (ids : list Z) :
  other <> pointId ->
  filter (fun r => PointItem.point_id r =? other)
         (filter (fun r => negb (PointItem.point_id r =? pointId)) old
          ++ map (fun z => PointItem.mk z pointId) ids)
  = filter (fun r => PointItem.point_id r =? other) old.
Proof.
  intros Hne. rewrite filter_app.
  assert (Hnew : filter (fun r => PointItem.point_id r =? other)
                        (map (fun z => PointItem.mk z pointId) ids) = []).
  { induction ids as [|z rest IH]; simpl; [reflexivity|].
    destruct (pointId =? other) eqn:E; [|assumption].
    apply Z.eqb_eq in E. congruence. }
  rewrite Hnew, app_nil_r.
  induction old as [|r rest IH]; simpl; [reflexivity|].
  destruct (PointItem.point_id r =? pointId) eqn:E; simpl.
  - apply Z.eqb_eq in E.
    destruct (PointItem.point_id r =? other) eqn:E'; [|assumption].
    apply Z.eqb_eq in E'. congruence.
  - rewrite IH. reflexivity.
Qed.

(** X20. An update without [items], or with the empty text, leaves every
    association row as it was, whatever its outcome. An update with a
    non-empty [items] that is carried out (answered 200) leaves its target
    associated with exactly the identifiers that [Number] gives for the
    trimmed pieces of [items] between commas, in that order and at least
    one, all former rows of the target gone, and leaves the rows of every
    other point as they were. *)
Theorem update_replaces_items_when_given (w : world) (request : request) :
  (truthy (Body.items (body request)) = false ->
   point_items (db (after (update w request))) = point_items (db w))
  /\ (truthy (Body.items (body request)) = true ->
      forall json, answer (update w request) = Respond 200 json ->
      exists rawPoint ids,
        target (db w) (body request) = Some rawPoint
        /\ ids <> []
        /\ map (fun item => Number (trim item))
               (split "," (String_ (Body.items (body request))))
           = map Some ids
        /\ items_linked_to (Point.id rawPoint) (db (after (update w request)))
           = ids
        /\ forall other, other <> Point.id rawPoint ->
             items_linked_to other (db (after (update w request)))
             = items_linked_to other (db w)).
Proof.
  split.
  - intros Hno. destruct (update_store w request) as [E|[json E]].
    + rewrite E. reflexivity.
    + destruct (update_success _ _ E) as (raw & u & trx1 & _ & _ & _ & _ & _ & H).
      rewrite Hno in H. assumption.
  - intros Hyes json E.
    destruct (update_success _ _ E) as (raw & u & trx1 & Ht & _ & _ & _ & _ & H).
    rewrite Hyes in H. destruct H as (ids & Hb & Hrows).
    exists raw, ids. split; [assumption|].
    apply bindings_map_Some in Hb. unfold parse_items in Hb.
    split.
    { intros ->. apply map_eq_nil in Hb. destruct (split_nonempty _ _ Hb). }
    split; [exact Hb|].
    unfold items_linked_to. rewrite Hrows. split.
    + apply linked_after_replace.
    + intros other Hne. rewrite linked_elsewhere_after_replace by assumption.
      reflexivity.
Qed.

(** C5 (as amended). A create that succeeds adds one association row per
    element of the parsed [items], in the order of the request and with
    repetitions: an identifier listed twice is inserted twice. *)
Theorem create_inserts_one_row_per_listed_item
        (w : world) (request : request) (json : jsval) :
  answer (create w request) = Respond 200 json ->
  exists ids,
    parse_items (String_ (Body.items (body request))) = map Some ids
    /\ point_items (db (after (create w request)))
       = point_items (db w)
         ++ map (fun z => PointItem.mk z (next_id (db w))) ids
    /\ exists p, points (db (after (create w request))) = points (db w) ++ [p]
                 /\ Point.id p = next_id (db w).
Proof.
  intros E.
  destruct (create_success _ _ E)
    as (email & password & f & its & ids & _ & _ & _ & _ & Hits & Hb & _ & Hp & Hi).
  exists ids. rewrite Hits. simpl.
  split; [apply bindings_map_Some; assumption|].
  split; [assumption|].
  eexists. split; [eassumption | reflexivity].
Qed.

(** C6. An update without a credential, or with the empty one, leaves the
    stored hash of every point as it was, whatever else happens. An update
    with a non-empty credential that is carried out (answered 200) stores the
    hash of the new credential in its target. *)
Theorem update_keeps_hash_without_credential (w : world) (request : request) :
  (truthy (Body.password (body request)) = false ->
   map (fun p => (Point.id p, Point.password p))
       (points (db (after (update w request))))
   = map (fun p => (Point.id p, Point.password p)) (points (db w)))
  /\ (forall password json,
        Body.password (body request) = Some password ->
        password <> "" ->
        answer (update w request) = Respond 200 json ->
        exists rawPoint,
          target (db w) (body request) = Some rawPoint
          /\ (exists p, In p (points (db (after (update w request))))
                        /\ Point.id p = Point.id rawPoint)
          /\ forall p, In p (points (db (after (update w request)))) ->
                       Point.id p = Point.id rawPoint ->
                       Point.password p = Some (bcrypt_hash password 10)).
Proof.
  split.
  - intros Hno. destruct (update_store w request) as [E|[json E]].
    + rewrite E. reflexivity.
    + destruct (update_success _ _ E)
        as (raw & u & trx1 & _ & Hu & Hup & Hp & _).
      rewrite Hno in Hu.
      destruct (update_point_ok _ _ _ Hup) as (Hmap & _).
      rewrite Hp, Hmap, map_map. apply map_ext. intros p.
      destruct (Point.id p =? Point.id raw); [|reflexivity].
      unfold apply_patch. simpl. rewrite Hu. reflexivity.
  - intros password json Hpw Hne E.
    destruct (update_success _ _ E)
      as (raw & u & trx1 & Ht & Hu & Hup & Hp & _).
    assert (Htr : truthy (Body.password (body request)) = true).
    { rewrite Hpw. simpl. destruct (String.eqb_spec password ""); auto. }
    rewrite Htr, Hpw in Hu. simpl in Hu.
    destruct (update_point_ok _ _ _ Hup) as (Hmap & _).
    exists raw. split; [assumption|]. rewrite Hp, Hmap. split.
    + exists (apply_patch u raw). split; [|reflexivity].
      apply in_map_iff. exists raw. rewrite Z.eqb_refl.
      split; [reflexivity|]. eapply target_stored; eassumption.
    + intros p Hin Hid. apply in_map_iff in Hin.
      destruct Hin as (p0 & Hp0 & _).
      destruct (Point.id p0 =? Point.id raw) eqn:Eid.
      * subst p. simpl. rewrite Hu. reflexivity.
      * subst p. apply Z.eqb_neq in Eid. contradiction.
Qed.

Lemma serialize_injective (p p' : Point.t) :
  serialize p = serialize p' -> p = p'.
Proof.
  assert (Hcol : forall a b, js_of_column a = js_of_column b -> a = b).
  { intros [a|] [b|]; simpl; congruence. }
  destruct p, p'. unfold serialize, Point.object. cbn.
  intros H. inversion H.
  repeat match goal with
         | E : js_of_column _ = js_of_column _ |- _ => apply Hcol in E
         end.
  congruence.
Qed.

Lemma decorate_injective (d : database) (q : Query.t) (p p' : Point.t) :
  decorate d q p = decorate d q p' -> p = p'.
Proof.
  unfold decorate. destruct (truthy (Query.returnItems q)); intros H.
  - remember (serialize p) as a eqn:Ea. remember (serialize p') as a' eqn:Ea'.
    injection H as Hs _. apply serialize_injective. congruence.
  - apply serialize_injective. assumption.
Qed.

(** C9 (as amended). A listing that the store answers contains exactly the
    stored points that lie in the city and region asked for and have an
    association row, which must carry one of the identifiers asked for
    unless [ignoreItems] is set; each such point is listed once. *)
Theorem index_lists_matching_points_once
        (w : world) (q : Query.t) (rows : list Point.t) :
  index_points (db w) q = Ok rows ->
  index w q = respond w NoTrx 200 (JArr (map (decorate (db w) q) rows))
  /\ NoDup (map (decorate (db w) q) rows)
  /\ forall p,
      In p rows <->
      In p (points (db w))
      /\ Point.city p = Some (String_ (Query.city q))
      /\ Point.uf p = Some (String_ (Query.uf q))
      /\ exists z, In z (items_linked_to (Point.id p) (db w))
                   /\ (truthy (Query.ignoreItems q) = false ->
                       In (Some z) (parse_items (String_ (Query.items q)))).
Proof.
  intros H. destruct (index_points_rows _ _ H) as [Hnd Hin].
  split; [apply index_answer; assumption|].
  split; [|assumption].
  clear Hin H. induction Hnd as [|p l Hp Hl IH]; simpl; constructor.
  - rewrite in_map_iff. intros (p' & E & Hin).
    apply decorate_injective in E. subst. contradiction.
  - assumption.
Qed.

(** C10. A stored point without any association row is never listed, with
    or without [ignoreItems]: a listing that the store answers does not
    contain it. *)
Theorem index_never_lists_point_without_items
        (w : world) (q : Query.t) (rows : list Point.t) (p : Point.t) :
  items_linked_to (Point.id p) (db w) = [] ->
  index_points (db w) q = Ok rows ->
  index w q = respond w NoTrx 200 (JArr (map (decorate (db w) q) rows))
  /\ ~ In p rows.
Proof.
  intros Hnone H. split; [apply index_answer; assumption|].
  intros Hin. apply (index_points_rows _ _ H) in Hin.
  destruct Hin as (_ & _ & _ & z & Hz & _).
  rewrite Hnone in Hz. contradiction.
Qed.

End Properties.

(** ** Requests that are carried out *)

Lemma first_by_id_after_update {runtime : Runtime}
      (pointId : Z) (f : Point.t -> Point.t) (ps : list Point.t) :
  (forall p, Point.id (f p) = Point.id p) ->
  (exists p, In p ps /\ Point.id p = pointId) ->
  find (fun p => Point.id p =? pointId) (map f ps) <> None.
Proof.
  intros Hf (p & Hin & Hid) Hnone.
  assert (E := find_none _ _ Hnone (f p) (in_map f ps p Hin)).
  simpl in E. rewrite Hf, Hid, Z.eqb_refl in E. discriminate.
Qed.

Lemma first_by_id_patched {runtime : Runtime}
      (rawPoint : Point.t) (u : patch) (ps : list Point.t)
      (pis : list PointItem.t) (its : list Item.t) (n : Z) :
  In rawPoint ps ->
  first_by_id (Point.id rawPoint)
    {| points := map (fun p => if Point.id p =? Point.id rawPoint
                               then apply_patch u p else p) ps;
       point_items := pis; items := its; next_id := n |}
  <> None.
Proof.
  intros Hin. unfold first_by_id. cbn [points].
  apply first_by_id_after_update.
  - intros p. destruct (Point.id p =? Point.id rawPoint); reflexivity.
  - exists rawPoint. auto.
Qed.

(** An update is carried out when its target exists, the new e-mail is free
    or unchanged, the old image is on disk if a new one comes (or, without a
    new image, some field is given), no identifier is [NaN], and the store
    has no constraint to object with. *)
Lemma update_carried_out {runtime : Runtime}
      (w : world) (request : request) (rawPoint : Point.t) :
  (forall d, schema_ok d = true) ->
  target (db w) (body request) = Some rawPoint ->
  (forall e, Body.email (body request) = Some e ->
             where_email e (db w) = []
             \/ Body.email (body request) = Body.originalemail (body request)) ->
  match file_ request with
  | Some _ => exists img, Point.image rawPoint = Some img /\ In img (uploads w)
  | None => Body.name (body request) <> None
  end ->
  (truthy (Body.items (body request)) = true ->
   bindings (parse_items (String_ (Body.items (body request)))) <> None) ->
  exists json, answer (update w request) = Respond 200 json.
Proof.
  intros Hschema Ht Hfree Hfile Hitems.
  assert (Hstored := target_stored _ _ Ht).
  unfold update, target in *. cbv zeta.
  destruct (Body.originalemail (body request)) as [original|] eqn:Ho;
    [|discriminate].
  assert (Hc : match Body.email (body request) with
               | Some e =>
                   truthy (Body.email (body request))
                   && negb (option_eqb (Body.email (body request))
                                       (Some original))
                   && (0 <? Z.of_nat (List.length (where_email e (db w))))
               | None => false
               end = false).
  { destruct (Body.email (body request)) as [e|] eqn:He; [|reflexivity].
    destruct (Hfree e eq_refl) as [E|E].
    - rewrite E. simpl. apply andb_false_r.
    - inversion E; subst. simpl. rewrite String.eqb_refl. simpl.
      rewrite andb_false_r. reflexivity. }
  rewrite Hc, Ht. clear Hc.
  assert (Hreleased :
            exists files image,
              match file_ request with
              | Some f =>
                  match unlinkSync (Point.image rawPoint) (uploads w) with
                  | Ok files => Ok (files, Some (filename f))
                  | Throw e => Throw e
                  end
              | None => Ok (uploads w, None)
              end = Ok (files, image)
              /\ (defined (Body.name (body request)) || defined image = true)).
  { destruct (file_ request) as [f|].
    - destruct Hfile as (img & Himg & Hin). rewrite Himg. unfold unlinkSync.
      assert (Hex : existsb (String.eqb img) (uploads w) = true).
      { apply existsb_exists. exists img. split; [assumption|].
        apply String.eqb_refl. }
      rewrite Hex. do 2 eexists. split; [reflexivity|]. apply orb_true_r.
    - do 2 eexists. split; [reflexivity|].
      destruct (Body.name (body request)); [reflexivity | contradiction]. }
  destruct Hreleased as (files & image & -> & Hdef).
  unfold update_point.
  match goal with
  | |- context [patch_is_empty ?u] =>
      assert (Hne : patch_is_empty u = false)
  end.
  { unfold patch_is_empty.
    cbn [patch_name patch_email patch_password patch_whatsapp patch_latitude
         patch_longitude patch_city patch_uf patch_image].
    destruct (defined (Body.name (body request))); [reflexivity|].
    simpl in Hdef. rewrite Hdef, orb_true_r. reflexivity. }
  rewrite Hne, Hschema.
  destruct (Body.items (body request)) as [its|] eqn:Hits.
  - destruct (truthy (Some its)) eqn:Htr.
    + unfold insert_point_items. rewrite rows_of_to_point_items.
      cbn [String_] in Hitems.
      destruct (bindings (parse_items its)) as [ids|] eqn:Hb;
        [|exfalso; apply Hitems; reflexivity].
      cbn [option_map]. rewrite Hschema.
      cbn [delete_point_items points point_items items next_id].
      match goal with
      | |- context [first_by_id ?i ?d] =>
          destruct (first_by_id i d) eqn:Hf;
            [|exfalso; eapply first_by_id_patched; [exact Hstored | exact Hf]]
      end.
      eexists. reflexivity.
    + match goal with
      | |- context [first_by_id ?i ?d] =>
          destruct (first_by_id i d) eqn:Hf;
            [|exfalso; eapply first_by_id_patched; [exact Hstored | exact Hf]]
      end.
      eexists. reflexivity.
  - match goal with
    | |- context [first_by_id ?i ?d] =>
        destruct (first_by_id i d) eqn:Hf;
          [|exfalso; eapply first_by_id_patched; [exact Hstored | exact Hf]]
    end.
    eexists. reflexivity.
Qed.

Lemma create_carried_out {runtime : Runtime}
      (w : world) (request : request)
      (email password its : string) (f : file) (ids : list Z) :
  (forall d, schema_ok d = true) ->
  Body.email (body request) = Some email ->
  where_email email (db w) = [] ->
  Body.password (body request) = Some password ->
  file_ request = Some f ->
  Body.items (body request) = Some its ->
  bindings (parse_items its) = Some ids ->
  exists json, answer (create w request) = Respond 200 json.
Proof.
  intros Hschema He Hfree Hpw Hf Hits Hb.
  unfold create. cbv zeta. rewrite He, Hfree, Hpw, Hf.
  cbn [List.length Z.of_nat Z.ltb Z.compare].
  unfold insert_point. rewrite Hschema, Hits.
  unfold insert_point_items. rewrite rows_of_to_point_items, Hb.
  cbn [option_map]. rewrite Hschema.
  eexists. reflexivity.
Qed.

(** A point that was created has an association row: [split] never returns
    the empty list. *)
Lemma create_links_an_item {runtime : Runtime}
      (w : world) (request : request) (json : jsval) :
  answer (create w request) = Respond 200 json ->
  exists z, In (PointItem.mk z (next_id (db w)))
               (point_items (db (after (create w request)))).
Proof.
  intros E.
  destruct (create_success _ _ E)
    as (email & password & f & its & ids & _ & _ & _ & _ & _ & Hb & _ & _ & Hi).
  apply bindings_map_Some in Hb.
  destruct ids as [|z ids].
  - unfold parse_items in Hb. apply map_eq_nil in Hb.
    destruct (split_nonempty _ _ Hb).
  - exists z. rewrite Hi. apply in_or_app. right. left. reflexivity.
Qed.

(** ** The password column in the answers *)

Lemma to_json_omits (k : string) (gs : list (string * jsval)) :
  Forall (fun kv => fst kv = k -> snd kv = JUndefined) gs ->
  exists fs, to_json (JObj gs) = JObj fs /\ get_prop k fs = None.
Proof.
  induction 1 as [|[k' v] gs Hkv _ IH].
  - exists []. split; reflexivity.
  - destruct IH as (fs & Hfs & Hget). simpl in Hfs. injection Hfs as Hfs.
    destruct (String.eqb_spec k k') as [->|Hne].
    + simpl in Hkv. rewrite (Hkv eq_refl). exists fs. simpl.
      rewrite Hfs. auto.
    + destruct v; simpl; rewrite Hfs;
        try (exists fs; split; [reflexivity | assumption]);
        (eexists; split; [reflexivity|]); simpl;
        (destruct (String.eqb_spec k k'); [contradiction | assumption]).
Qed.

Lemma to_json_keeps (k : string) (v : jsval) (gs : list (string * jsval)) :
  get_prop k gs = Some v ->
  v <> JUndefined ->
  exists fs, to_json (JObj gs) = JObj fs /\ get_prop k fs = Some (to_json v).
Proof.
  intros Hget Hv. induction gs as [|[k' v'] gs IH]; [discriminate|].
  simpl in Hget. destruct (String.eqb_spec k k') as [->|Hne].
  - inversion Hget; subst v'.
    destruct v; try contradiction;
      (eexists; split; [reflexivity|]); simpl; rewrite String.eqb_refl;
      reflexivity.
  - destruct (IH Hget) as (fs & Hfs & Hfound).
    simpl in Hfs. injection Hfs as Hfs.
    destruct v'; simpl; rewrite Hfs;
      try (exists fs; split; [reflexivity | assumption]);
      (eexists; split; [reflexivity|]); simpl;
      (destruct (String.eqb_spec k k'); [contradiction | assumption]).
Qed.

Lemma serialize_password (p : Point.t) :
  exists fs, to_json (serialize p) = JObj fs
             /\ get_prop "password" fs = Some (js_of_column (Point.password p)).
Proof.
  destruct (@to_json_keeps "password" (js_of_column (Point.password p))
              (set_prop "image_url" (JStr (image_url (Point.image p)))
                        (Point.object p)))
    as (fs & Hfs & Hget).
  - vm_compute. reflexivity.
  - destruct (Point.password p); discriminate.
  - exists fs. split; [exact Hfs|]. rewrite Hget.
    destruct (Point.password p); reflexivity.
Qed.

Lemma to_json_pair (k1 k2 : string) (gs : list (string * jsval)) (v : jsval) :
  v <> JUndefined ->
  to_json (JObj [(k1, JObj gs); (k2, v)])
  = JObj [(k1, to_json (JObj gs)); (k2, to_json v)].
Proof.
  intros Hv. destruct v; try contradiction; reflexivity.
Qed.

(** [show] answers with the whole row of the point, password column
    included. *)
Lemma show_answer_carries_password {runtime : Runtime}
      (w : world) (id : Z) (p : Point.t) :
  first_by_id id (db w) = Some p ->
  exists fs its,
    answer (show w id) = Respond 200 (JObj [("point", JObj fs); ("items", its)])
    /\ get_prop "password" fs = Some (js_of_column (Point.password p)).
Proof.
  intros H. unfold show. rewrite H.
  destruct (serialize_password p) as (fs & Hfs & Hget).
  exists fs, (to_json (JArr (items_of_point select_title id (db w)))).
  split; [|exact Hget].
  cbn [answer respond]. unfold serialize in *.
  rewrite to_json_pair by discriminate. rewrite Hfs. reflexivity.
Qed.

(** [index] answers with the whole row of every point listed, password
    column included. *)
Lemma index_answer_carries_passwords {runtime : Runtime}
      (w : world) (q : Query.t) (rows : list Point.t) :
  index_points (db w) q = Ok rows ->
  truthy (Query.returnItems q) = false ->
  exists entries,
    answer (index w q) = Respond 200 (JArr entries)
    /\ Forall2 (fun p entry =>
                  exists fs,
                    entry = JObj fs
                    /\ get_prop "password" fs
                       = Some (js_of_column (Point.password p)))
               rows entries.
Proof.
  intros Hrows Hret. unfold index. rewrite Hrows, Hret.
  exists (map (fun p => to_json (serialize p)) rows). split.
  - cbn [answer respond to_json]. rewrite map_map.
    do 2 apply f_equal. apply map_ext. intros p.
    unfold serialize. cbv beta iota. reflexivity.
  - clear Hrows. induction rows as [|p rows IH]; cbn [map]; constructor.
    + destruct (serialize_password p) as (fs & Hfs & Hget).
      exists fs. split; assumption.
    + assumption.
Qed.

(** [update] answers without the password column. *)
Lemma update_answer_without_password {runtime : Runtime}
      (w : world) (request : request) (json : jsval) :
  answer (update w request) = Respond 200 json ->
  exists fs its,
    json = JObj [("point", JObj fs); ("items", its)]
    /\ get_prop "password" fs = None.
Proof.
  unfold update. cbv zeta. intros H.
  repeat destruct_match_in H.
  match type of H with
  | Respond _ ?b = _ => assert (Hj : json = b) by congruence
  end.
  subst json. clear H.
  match goal with
  | |- context [JObj [("point", JObj ?gs); _]] =>
      destruct (@to_json_omits "password" gs) as (fs & Hfs & Hget)
  end.
  { unfold Point.object. cbn [set_prop String.eqb Ascii.eqb Bool.eqb].
    repeat constructor; simpl; intros E; try discriminate E; reflexivity. }
  match goal with
  | |- context [to_json (JObj [_; (_, ?v)])] => exists fs, (to_json v)
  end.
  split; [|exact Hget].
  rewrite to_json_pair by discriminate. rewrite Hfs. reflexivity.
Qed.

(** [create] answers without the password hash. *)
Lemma create_answer_without_password {runtime : Runtime}
      (w : world) (request : request) (json : jsval) :
  answer (create w request) = Respond 200 json ->
  exists fs token,
    json = JObj [("point", JObj fs); ("token", token)]
    /\ get_prop "password" fs = None.
Proof.
  unfold create. cbv zeta. intros H.
  repeat destruct_match_in H.
  match type of H with
  | Respond _ ?b = _ => assert (Hj : json = b) by congruence
  end.
  subst json. clear H.
  match goal with
  | |- context [JObj [("point", JObj ?gs); _]] =>
      destruct (@to_json_omits "password" gs) as (fs & Hfs & Hget)
  end.
  { cbn [set_prop String.eqb Ascii.eqb Bool.eqb].
    repeat constructor; simpl; intros E; try discriminate E; reflexivity. }
  match goal with
  | |- context [to_json (JObj [_; (_, ?v)])] => exists fs, (to_json v)
  end.
  split; [|exact Hget].
  rewrite to_json_pair by discriminate. rewrite Hfs. reflexivity.
Qed.

(** ** Failure paths of [create] and [update] *)

(** A create without an uploaded file, for an e-mail that is still free,
    ends in a [TypeError] thrown while the point object is built; the
    transaction opened just before is left open. *)
Lemma create_without_file {runtime : Runtime}
      (w : world) (request : request) (email password : string) :
  file_ request = None ->
  Body.email (body request) = Some email ->
  where_email email (db w) = [] ->
  Body.password (body request) = Some password ->
  create w request = uncaught w (LeftOpen (db w)) (TypeError "filename").
Proof.
  intros Hf He Hfree Hpw. unfold create. cbv zeta.
  rewrite He, Hfree, Hpw, Hf. reflexivity.
Qed.

(** No path of [create] rolls its transaction back. *)
Lemma create_never_rolls_back {runtime : Runtime}
      (w : world) (request : request) :
  trx (create w request) <> RolledBack.
Proof.
  destruct (create_failure w request) as [[json E]|[_ [E|[d E]]]].
  - destruct (create_success _ _ E)
      as (? & ? & ? & ? & ? & _ & _ & _ & _ & _ & _ & Hc & _).
    rewrite Hc. discriminate.
  - rewrite E. discriminate.
  - rewrite E. discriminate.
Qed.

(** * Further properties of the handlers *)

Section Further.

Context {runtime : Runtime}.

(** ** All or nothing *)

Lemma find_none_of (A : Type) (f : A -> bool) (l : list A) :
  (forall x, In x l -> f x = false) -> find f l = None.
Proof.
  induction l as [|x l IH]; simpl; intros H; [reflexivity|].
  rewrite (H x (or_introl eq_refl)). apply IH. intros y Hy. apply H. auto.
Qed.

Lemma find_last (A : Type) (f : A -> bool) (l : list A) (x : A) :
  (forall y, In y l -> f y = false) -> f x = true ->
  find f (l ++ [x]) = Some x.
Proof.
  induction l as [|y l IH]; simpl; intros H Hx.
  - rewrite Hx. reflexivity.
  - rewrite (H y (or_introl eq_refl)). apply IH; auto.
Qed.

Lemma create_uploads (w : world) (request : request) :
  uploads (after (create w request)) = uploads w.
Proof.
  unfold create. cbv zeta. repeat destruct_match; reflexivity.
Qed.

(** X1. [show] always answers and changes nothing: with 400 and the message
    [point not found.] exactly when no stored point has the identifier asked
    for, and otherwise with 200, the serialized row of a stored point that
    has the identifier and the titles of the items linked to it. *)
Theorem show_answers_stored_point_or_not_found (w : world) (id : Z) :
  ((forall p, In p (points (db w)) -> Point.id p <> id)
   <-> show w id = respond w NoTrx 400 point_not_found)
  /\ ((exists p, In p (points (db w)) /\ Point.id p = id)
      <-> exists p,
            In p (points (db w)) /\ Point.id p = id
            /\ show w id
               = respond w NoTrx 200
                   (JObj [ ("point", serialize p);
                           ("items",
                            JArr (items_of_point select_title id (db w))) ])).
Proof.
  unfold show, first_by_id.
  destruct (find (fun p => Point.id p =? id) (points (db w))) as [found|] eqn:E.
  - apply find_some in E. destruct E as [Hin Hid]. apply Z.eqb_eq in Hid.
    split; split.
    + intros Hnone. destruct (Hnone found Hin Hid).
    + intros H. apply (f_equal answer) in H.
      cbn [answer respond] in H. discriminate H.
    + intros _. exists found. auto.
    + intros (p & Hp & Hpid & _). exists p. auto.
  - assert (Hnone : forall p, In p (points (db w)) -> Point.id p <> id).
    { intros p Hp Hid. apply (find_none _ _ E) in Hp. simpl in Hp.
      rewrite Hid, Z.eqb_refl in Hp. discriminate. }
    split; split.
    + reflexivity.
    + intros _. exact Hnone.
    + intros (p & Hp & Hid). destruct (Hnone p Hp Hid).
    + intros (p & Hp & Hid & _). destruct (Hnone p Hp Hid).
Qed.

(** X2. A create either leaves the world exactly as it was, or it is
    answered 200 and has committed one new point row, with the next
    identifier and the e-mail of the request, together with its association
    rows, of which there is at least one; the upload directory is never
    touched. *)
Theorem create_all_or_nothing (w : world) (request : request) :
  after (create w request) = w
  \/ exists json p ids,
       answer (create w request) = Respond 200 json
       /\ trx (create w request) = Committed
       /\ ids <> []
       /\ Point.id p = next_id (db w)
       /\ Point.email p = Body.email (body request)
       /\ points (db (after (create w request))) = points (db w) ++ [p]
       /\ point_items (db (after (create w request)))
          = point_items (db w)
            ++ map (fun z => PointItem.mk z (next_id (db w))) ids
       /\ uploads (after (create w request)) = uploads w.
Proof.
  destruct (create_failure w request) as [[json E]|[E _]]; [right | left; exact E].
  destruct (create_success _ _ E)
    as (email & password & f & its & ids & He & _ & _ & _ & _ & Hb & Hc & Hp & Hi).
  exists json. eexists. exists ids.
  split; [exact E|]. split; [exact Hc|].
  split.
  { intros ->. apply bindings_map_Some in Hb. unfold parse_items in Hb.
    apply map_eq_nil in Hb. destruct (split_nonempty _ _ Hb). }
  split; [|split; [|split; [exact Hp | split; [exact Hi | apply create_uploads]]]].
  - reflexivity.
  - simpl. symmetry. exact He.
Qed.

(** X3. After a create that succeeded, a second create under the same e-mail
    is rejected with EMAIL_ALREADY_REGISTERED and changes nothing. *)
Theorem create_twice_rejects_second
        (w : world) (first second : request) (json : jsval) :
  answer (create w first) = Respond 200 json ->
  Body.email (body second) = Body.email (body first) ->
  create (after (create w first)) second
  = respond (after (create w first)) NoTrx 400 email_already_registered.
Proof.
  intros E Hsame.
  destruct (create_success _ _ E)
    as (email & password & f & its & ids & He & _ & _ & _ & _ & _ & _ & Hp & _).
  unfold create at 1. cbv zeta. rewrite Hsame, He.
  match type of Hp with
  | _ = _ ++ [?p] =>
      assert (Hin : In p (where_email email (db (after (create w first)))))
  end.
  { apply filter_In. split.
    - rewrite Hp. apply in_or_app. right. left. reflexivity.
    - simpl. apply String.eqb_refl. }
  destruct (where_email email (db (after (create w first)))) as [|x l];
    [contradiction|].
  reflexivity.
Qed.

(** X4. After a create that succeeded in a store where the next identifier
    is not yet in use, [show] for that identifier answers 200 with the row
    just created: the fields of the request, the name of the uploaded file
    and the e-mail. *)
Theorem show_after_create (w : world) (request : request) (json : jsval) :
  answer (create w request) = Respond 200 json ->
  (forall p, In p (points (db w)) -> Point.id p <> next_id (db w)) ->
  exists image email hash,
    new_image request = Some image
    /\ Body.email (body request) = Some email
    /\ show (after (create w request)) (next_id (db w))
       = respond (after (create w request)) NoTrx 200
           (JObj [ ("point",
                    serialize
                      {| Point.id := next_id (db w);
                         Point.image := Some image;
                         Point.name := Body.name (body request);
                         Point.email := Some email;
                         Point.password := Some hash;
                         Point.whatsapp := Body.whatsapp (body request);
                         Point.latitude := Body.latitude (body request);
                         Point.longitude := Body.longitude (body request);
                         Point.city := Body.city (body request);
                         Point.uf := Body.uf (body request) |});
                   ("items",
                    JArr (items_of_point select_title (next_id (db w))
                            (db (after (create w request))))) ]).
Proof.
  intros E Hfresh.
  destruct (create_success _ _ E)
    as (email & password & f & its & ids & He & _ & _ & Hf & _ & _ & _ & Hp & _).
  exists (filename f), email, (bcrypt_hash password 10).
  split; [unfold new_image; rewrite Hf; reflexivity|].
  split; [exact He|].
  unfold show, first_by_id. rewrite Hp.
  rewrite find_last.
  - reflexivity.
  - intros p Hin. apply Z.eqb_neq. auto.
  - simpl. apply Z.eqb_refl.
Qed.


(** ** What an update changes *)

Lemma released_inv (image : option string) (files : list string)
      (upload : option file) (l : list string) (o : option string) :
  match upload with
  | Some f =>
      match unlinkSync image files with
      | Ok fs => Ok (fs, Some (filename f))
      | Throw e => Throw e
      end
  | None => Ok (files, None)
  end = Ok (l, o) ->
  (upload = None /\ l = files /\ o = None)
  \/ exists f old,
       upload = Some f /\ image = Some old /\ In old files
       /\ l = filter (fun g => negb (String.eqb old g)) files
       /\ o = Some (filename f).
Proof.
  destruct upload as [f|]; [|intros H; inversion H; auto].
  unfold unlinkSync. destruct image as [old|]; [|discriminate].
  destruct (existsb (String.eqb old) files) eqn:E; [|discriminate].
  intros H. inversion H; subst. right. exists f, old.
  repeat split; try reflexivity.
  apply existsb_exists in E. destruct E as (g & Hg & Heq).
  apply String.eqb_eq in Heq. subst. assumption.
Qed.

Lemma replaced_inv (given : option string) (pointId : Z) (trx1 d : database) :
  match given with
  | Some items =>
      if truthy given then
        match insert_point_items
                (to_point_items pointId (parse_items items))
                (delete_point_items pointId trx1) with
        | Ok trx3 => inl trx3
        | Throw e => inr (delete_point_items pointId trx1, e)
        end
      else inl trx1
  | None => inl trx1
  end = inl d ->
  points d = points trx1.
Proof.
  destruct given as [its|]; [|intros H; inversion H; reflexivity].
  destruct (truthy (Some its)); [|intros H; inversion H; reflexivity].
  destruct (insert_point_items _ _) as [trx3|] eqn:Hins; [|discriminate].
  intros H. inversion H; subst.
  destruct (insert_point_items_ok _ _ Hins) as (rows & _ & Hp & _).
  rewrite Hp. reflexivity.
Qed.

(** What an update that was carried out did, with the object it gave to the
    query builder and the file it released. *)
Lemma update_success_patch (w : world) (request : request) (json : jsval) :
  answer (update w request) = Respond 200 json ->
  exists rawPoint trx1,
    target (db w) (body request) = Some rawPoint
    /\ update_point (Point.id rawPoint)
                    (patch_of request (new_image request)) (db w) = Ok trx1
    /\ points (db (after (update w request))) = points trx1
    /\ match file_ request with
       | Some _ =>
           exists old,
             Point.image rawPoint = Some old /\ In old (uploads w)
             /\ uploads (after (update w request))
                = filter (fun g => negb (String.eqb old g)) (uploads w)
       | None => uploads (after (update w request)) = uploads w
       end.
Proof.
  unfold update, target. cbv zeta. intros E.
  repeat destruct_match_in E.
  match goal with
  | R : _ = Ok (?l, ?o), U : update_point _ ?u _ = Ok ?d, S : _ = inl ?d' |- _ =>
      exists t, d;
      assert (Hu : u = patch_of request o)
        by (unfold patch_of;
            destruct (Body.password (body request)), (truthy _); reflexivity);
      rewrite Hu in U; pose proof (replaced_inv _ _ _ S) as Hp;
      destruct (released_inv _ _ _ R) as
        [(Hf & -> & ->) | (f & old & Hf & Hold & Hin & -> & ->)]
  end.
  - cbn [after respond uploads with_db with_uploads db].
    unfold new_image. rewrite Hf. auto.
  - cbn [after respond uploads with_db with_uploads db].
    unfold new_image. rewrite Hf. repeat split; try assumption.
    exists old. auto.
Qed.

(** The upload directory after an update, whatever its outcome: as before,
    or without the old image of the target when a file came with the
    request. *)
Lemma update_uploads (w : world) (request : request) :
  uploads (after (update w request)) = uploads w
  \/ exists rawPoint old,
       target (db w) (body request) = Some rawPoint
       /\ Point.image rawPoint = Some old
       /\ file_ request <> None
       /\ uploads (after (update w request))
          = filter (fun g => negb (String.eqb old g)) (uploads w).
Proof.
  unfold update, target. cbv zeta.
  repeat destruct_match; try (left; reflexivity).
  all: match goal with
       | R : _ = Ok (_, _), T : hd_error _ = Some ?raw |- _ =>
           destruct (released_inv _ _ _ R) as
             [(Hf & -> & ->) | (f & old & Hf & Hold & Hin & -> & ->)];
           [left; reflexivity
           |right; exists raw, old;
            repeat split; try assumption; rewrite Hf; discriminate]
       end.
Qed.


Lemma In_released (old f : string) (files : list string) :
  In f (filter (fun g => negb (String.eqb old g)) files)
  <-> In f files /\ f <> old.
Proof.
  rewrite filter_In. split; intros [Hin H]; (split; [assumption|]).
  - intros ->. rewrite String.eqb_refl in H. discriminate.
  - destruct (String.eqb_spec old f); [subst; contradiction | reflexivity].
Qed.

(** X5. Whatever its outcome, an update neither adds nor removes a point
    row, keeps the identifier of every row, and leaves every row as it was
    unless the row has the identifier of the target. *)
Theorem update_changes_rows_of_target_only (w : world) (request : request) :
  map Point.id (points (db (after (update w request))))
  = map Point.id (points (db w))
  /\ (forall p, In p (points (db w)) ->
        In p (points (db (after (update w request))))
        \/ exists rawPoint, target (db w) (body request) = Some rawPoint
                            /\ Point.id p = Point.id rawPoint)
  /\ (forall p, In p (points (db (after (update w request)))) ->
        In p (points (db w))
        \/ exists rawPoint, target (db w) (body request) = Some rawPoint
                            /\ Point.id p = Point.id rawPoint).
Proof.
  destruct (update_store w request) as [E|[json E]].
  - rewrite E. auto.
  - destruct (update_success_patch _ _ E) as (raw & trx1 & Ht & Hup & Hp & _).
    destruct (update_point_ok _ _ _ Hup) as (Hmap & _).
    rewrite Hp, Hmap. split; [|split].
    + rewrite map_map. apply map_ext. intros p.
      destruct (Point.id p =? Point.id raw); reflexivity.
    + intros p Hin. destruct (Point.id p =? Point.id raw) eqn:Eid.
      * right. exists raw. apply Z.eqb_eq in Eid. auto.
      * left. apply in_map_iff. exists p. rewrite Eid. auto.
    + intros p Hin. apply in_map_iff in Hin. destruct Hin as (p0 & <- & Hin).
      destruct (Point.id p0 =? Point.id raw) eqn:Eid.
      * right. exists raw. apply Z.eqb_eq in Eid. auto.
      * left. assumption.
Qed.

(** X6. An update that is carried out writes, in the row of its target, the
    fields that the request gives and keeps the others: a field that is
    absent keeps its stored value, a field that is given replaces it (also
    when it is the empty text), the password column changes only for a
    non-empty password, the image only when a file comes with the
    request. *)
Theorem update_writes_given_fields
        (w : world) (request : request) (json : jsval) :
  answer (update w request) = Respond 200 json ->
  exists rawPoint,
    target (db w) (body request) = Some rawPoint
    /\ In {| Point.id := Point.id rawPoint;
             Point.image := assign (new_image request) (Point.image rawPoint);
             Point.name :=
               assign (Body.name (body request)) (Point.name rawPoint);
             Point.email :=
               assign (Body.email (body request)) (Point.email rawPoint);
             Point.password :=
               if truthy (Body.password (body request))
               then option_map (fun password => bcrypt_hash password 10)
                               (Body.password (body request))
               else Point.password rawPoint;
             Point.whatsapp :=
               assign (Body.whatsapp (body request)) (Point.whatsapp rawPoint);
             Point.latitude :=
               assign (Body.latitude (body request)) (Point.latitude rawPoint);
             Point.longitude :=
               assign (Body.longitude (body request))
                      (Point.longitude rawPoint);
             Point.city :=
               assign (Body.city (body request)) (Point.city rawPoint);
             Point.uf := assign (Body.uf (body request)) (Point.uf rawPoint) |}
          (points (db (after (update w request))))
    /\ points (db (after (update w request)))
       = map (fun p => if Point.id p =? Point.id rawPoint
                       then apply_patch (patch_of request (new_image request)) p
                       else p)
             (points (db w)).
Proof.
  intros E.
  destruct (update_success_patch _ _ E) as (raw & trx1 & Ht & Hup & Hp & _).
  destruct (update_point_ok _ _ _ Hup) as (Hmap & _).
  exists raw. split; [assumption|]. rewrite Hp, Hmap. split; [|reflexivity].
  apply in_map_iff. exists raw. rewrite Z.eqb_refl.
  split; [|eapply target_stored; eassumption].
  unfold apply_patch, patch_of.
  cbn [patch_name patch_email patch_password patch_whatsapp patch_latitude
       patch_longitude patch_city patch_uf patch_image].
  f_equal.
  destruct (Body.password (body request)) as [password|]; [|reflexivity].
  destruct (truthy (Some password)); reflexivity.
Qed.

(** X7. An update never adds a file to the upload directory and never
    deletes a file other than the old image of its target; without an
    uploaded file it deletes nothing; when it is carried out with an
    uploaded file, the old image of the target is gone. *)
Theorem update_releases_old_image_only (w : world) (request : request) :
  (file_ request = None -> uploads (after (update w request)) = uploads w)
  /\ (forall f, In f (uploads (after (update w request))) -> In f (uploads w))
  /\ (forall f, In f (uploads w) ->
        ~ In f (uploads (after (update w request))) ->
        exists rawPoint, target (db w) (body request) = Some rawPoint
                         /\ Point.image rawPoint = Some f)
  /\ (forall json, answer (update w request) = Respond 200 json ->
        file_ request <> None ->
        exists rawPoint old,
          target (db w) (body request) = Some rawPoint
          /\ Point.image rawPoint = Some old
          /\ ~ In old (uploads (after (update w request)))).
Proof.
  split; [|split; [|split]].
  - intros Hf.
    destruct (update_uploads w request) as [E|(raw & old & _ & _ & Hne & _)];
      [assumption | contradiction].
  - intros f.
    destruct (update_uploads w request) as [E|(raw & old & _ & _ & _ & E)];
      rewrite E; [auto|].
    intros Hin. apply In_released in Hin. tauto.
  - intros f Hin Hgone.
    destruct (update_uploads w request) as [E|(raw & old & Ht & Hold & _ & E)];
      rewrite E in Hgone; [contradiction|].
    exists raw. split; [assumption|].
    destruct (String.eqb_spec f old) as [->|Hne]; [assumption|].
    exfalso. apply Hgone. apply In_released. auto.
  - intros json E Hfile.
    destruct (update_success_patch _ _ E) as (raw & trx1 & Ht & _ & _ & Hup).
    destruct (file_ request); [|contradiction].
    destruct Hup as (old & Hold & _ & Hfiles).
    exists raw, old. split; [assumption|]. split; [assumption|].
    rewrite Hfiles. intros Hin. apply In_released in Hin. tauto.
Qed.


(** X9. An update that asks for a new, non-empty e-mail which a stored point
    already has is answered 400 with EMAIL_ALREADY_REGISTERED before
    anything is opened, written or deleted. *)
Theorem update_rejects_registered_email
        (w : world) (request : request) (email : string) (p : Point.t) :
  Body.email (body request) = Some email ->
  email <> "" ->
  Body.originalemail (body request) <> Some email ->
  In p (points (db w)) ->
  Point.email p = Some email ->
  update w request = respond w NoTrx 400 email_already_registered.
Proof.
  intros He Hne Hnew Hin Hp. unfold update. cbv zeta. rewrite He.
  assert (Hfound : In p (where_email email (db w))).
  { apply filter_In. split; [assumption|]. apply option_eqb_Some. assumption. }
  assert (Htr : truthy (Some email) = true).
  { simpl. destruct (String.eqb_spec email ""); [contradiction | reflexivity]. }
  assert (Hdiff : option_eqb (Some email) (Body.originalemail (body request))
                  = false).
  { destruct (Body.originalemail (body request)) as [o|]; [|reflexivity].
    simpl. destruct (String.eqb_spec email o); [subst; contradiction|].
    reflexivity. }
  rewrite Htr, Hdiff.
  destruct (where_email email (db w)) as [|x l]; [contradiction|].
  reflexivity.
Qed.

(** X10. The uniqueness check of [update] is skipped when the e-mail of the
    request is absent, empty or equal to [originalemail]: such an update is
    never answered with EMAIL_ALREADY_REGISTERED, although the target itself
    has that e-mail. *)
Theorem update_keeping_email_is_not_rejected (w : world) (request : request) :
  Body.email (body request) = Body.originalemail (body request)
  \/ truthy (Body.email (body request)) = false ->
  answer (update w request) <> Respond 400 (to_json email_already_registered).
Proof.
  intros Hsame. unfold update. cbv zeta.
  assert (Hc : match Body.email (body request) with
               | Some e =>
                   truthy (Body.email (body request))
                   && negb (option_eqb (Body.email (body request))
                                       (Body.originalemail (body request)))
                   && (0 <? Z.of_nat (List.length (where_email e (db w))))
               | None => false
               end = false).
  { destruct (Body.email (body request)) as [e|] eqn:He; [|reflexivity].
    destruct Hsame as [<-|Hno].
    - simpl. rewrite String.eqb_refl. simpl.
      rewrite andb_false_r. reflexivity.
    - rewrite Hno. reflexivity. }
  rewrite Hc.
  repeat destruct_match; intros H; discriminate H.
Qed.


(** ** The e-mails stay unique *)

Lemma option_eqb_eq_sym (a b : option string) :
  option_eqb a b = true -> b = a.
Proof.
  destruct a as [x|], b as [y|]; simpl; try discriminate; [|reflexivity].
  intros H. apply String.eqb_eq in H. congruence.
Qed.

Lemma In_emails_of (e : string) (ps : list Point.t) :
  In e (emails_of ps) <-> exists p, In p ps /\ Point.email p = Some e.
Proof.
  unfold emails_of. rewrite in_flat_map. split.
  - intros (p & Hp & H). exists p. split; [assumption|].
    destruct (Point.email p) as [x|]; [|contradiction].
    destruct H as [->|[]]. reflexivity.
  - intros (p & Hp & H). exists p. split; [assumption|].
    rewrite H. left. reflexivity.
Qed.

Lemma where_email_none (e : string) (d : database) :
  where_email e d = [] -> ~ In e (emails_of (points d)).
Proof.
  intros Hnone Hin. apply In_emails_of in Hin. destruct Hin as (p & Hp & He).
  assert (H : In p (where_email e d)).
  { apply filter_In. split; [assumption|]. apply option_eqb_Some. assumption. }
  rewrite Hnone in H. contradiction.
Qed.

Lemma NoDup_snoc (A : Type) (l : list A) (x : A) :
  NoDup l -> ~ In x l -> NoDup (l ++ [x]).
Proof.
  induction 1 as [|y l Hy Hl IH]; simpl; intros Hx.
  - constructor; [intros []|constructor].
  - constructor.
    + rewrite in_app_iff. intros [H|[H|[]]]; [contradiction|].
      apply Hx. left. symmetry. assumption.
    + apply IH. intros H. apply Hx. right. assumption.
Qed.

Lemma emails_of_app (ps qs : list Point.t) :
  emails_of (ps ++ qs) = emails_of ps ++ emails_of qs.
Proof.
  unfold emails_of. induction ps as [|p ps IH]; simpl; [reflexivity|].
  rewrite IH, app_assoc. reflexivity.
Qed.

Lemma emails_of_map_same (f : Point.t -> Point.t) (ps : list Point.t) :
  (forall p, In p ps -> Point.email (f p) = Point.email p) ->
  emails_of (map f ps) = emails_of ps.
Proof.
  unfold emails_of. induction ps as [|p ps IH]; simpl; intros H; [reflexivity|].
  rewrite (H p (or_introl eq_refl)), IH; [reflexivity|].
  intros q Hq. apply H. right. assumption.
Qed.

Lemma same_id_same_row (ps : list Point.t) (p q : Point.t) :
  NoDup (map Point.id ps) -> In p ps -> In q ps -> Point.id p = Point.id q ->
  p = q.
Proof.
  induction ps as [|x ps IH]; simpl; intros Hnd Hp Hq Hid; [contradiction|].
  inversion Hnd as [|? ? Hx Hps]; subst.
  destruct Hp as [->|Hp], Hq as [->|Hq]; auto.
  - exfalso. apply Hx. rewrite Hid. apply in_map. assumption.
  - exfalso. apply Hx. rewrite <- Hid. apply in_map. assumption.
Qed.

Lemma emails_of_replaced
      (pointId : Z) (e : string) (g : Point.t -> Point.t) (ps : list Point.t) :
  (forall p, Point.email (g p) = Some e) ->
  NoDup (map Point.id ps) ->
  NoDup (emails_of ps) ->
  ~ In e (emails_of ps) ->
  NoDup (emails_of (map (fun p => if Point.id p =? pointId then g p else p)
                        ps)).
Proof.
  intros Hg. induction ps as [|p ps IH]; intros Hids Hnd He; [constructor|].
  inversion Hids as [|? ? Hp Hps]; subst.
  change (emails_of (p :: ps))
    with (match Point.email p with Some x => [x] | None => [] end
          ++ emails_of ps) in Hnd, He.
  assert (Hnd' : NoDup (emails_of ps)).
  { destruct (Point.email p); [inversion Hnd; assumption | assumption]. }
  assert (He' : ~ In e (emails_of ps)).
  { intros H. apply He. apply in_or_app. right. assumption. }
  cbn [map].
  change (emails_of (?x :: ?l))
    with (match Point.email x with Some y => [y] | None => [] end
          ++ emails_of l).
  destruct (Point.id p =? pointId) eqn:Eid.
  - apply Z.eqb_eq in Eid. rewrite Hg.
    assert (Hsame : map (fun q => if Point.id q =? pointId then g q else q) ps
                    = ps).
    { rewrite <- (map_id ps) at 2. apply map_ext_in. intros q Hq.
      destruct (Point.id q =? pointId) eqn:Eq; [|reflexivity].
      apply Z.eqb_eq in Eq. exfalso. apply Hp. rewrite Eid, <- Eq.
      apply in_map. assumption. }
    rewrite Hsame. simpl. constructor; assumption.
  - specialize (IH Hps Hnd' He').
    destruct (Point.email p) as [x|] eqn:Ex; [|exact IH].
    simpl. constructor; [|exact IH].
    intros Hin. apply In_emails_of in Hin. destruct Hin as (q' & Hq' & Hx).
    apply in_map_iff in Hq'. destruct Hq' as (q & <- & Hq).
    destruct (Point.id q =? pointId).
    + rewrite Hg in Hx. inversion Hx; subst. apply He. left. reflexivity.
    + inversion Hnd as [|? ? Hnotin _]; subst. apply Hnotin.
      apply In_emails_of. exists q. auto.
Qed.

(** The e-mail of an update that was carried out, when it is not empty, is
    the e-mail the target already had or one that no stored point has. *)
Lemma update_collision_free
      (w : world) (request : request) (json : jsval) (e : string) :
  answer (update w request) = Respond 200 json ->
  Body.email (body request) = Some e ->
  e <> "" ->
  Body.originalemail (body request) = Some e \/ where_email e (db w) = [].
Proof.
  unfold update. cbv zeta. intros E He Hne. rewrite He in E.
  assert (Htr : truthy (Some e) = true).
  { simpl. destruct (String.eqb_spec e ""); [contradiction | reflexivity]. }
  rewrite Htr in E.
  destruct (option_eqb (Some e) (Body.originalemail (body request))) eqn:Eo.
  - left. apply option_eqb_eq_sym in Eo. exact Eo.
  - right. destruct (where_email e (db w)) as [|x l]; [reflexivity|].
    cbn in E. discriminate E.
Qed.


(** X11. A create that is handled alone, from its check to its commit with
    no other request in between, keeps the stored e-mails distinct: if no two
    points share an e-mail when it starts, none do when it ends, whatever
    the outcome. (The check reads the store outside the transaction, so two
    creates that interleave are not covered.) *)
Theorem create_keeps_emails_distinct (w : world) (request : request) :
  NoDup (emails_of (points (db w))) ->
  NoDup (emails_of (points (db (after (create w request))))).
Proof.
  intros Hnd.
  destruct (create_failure w request) as [[json E]|[E _]]; [|rewrite E; exact Hnd].
  destruct (create_success _ _ E)
    as (email & password & f & its & ids & _ & Hfree & _ & _ & _ & _ & _ & Hp & _).
  rewrite Hp, emails_of_app. apply NoDup_snoc; [assumption|].
  apply where_email_none. assumption.
Qed.

(** X12. An update that is handled alone, from its check to its commit with
    no other request in between, keeps the stored e-mails distinct, in a
    store whose identifiers are distinct, unless the request gives the empty
    text as e-mail (which is written without the uniqueness check). (The
    check reads the store outside the transaction, so requests that
    interleave are not covered.) *)
Theorem update_keeps_emails_distinct (w : world) (request : request) :
  NoDup (map Point.id (points (db w))) ->
  NoDup (emails_of (points (db w))) ->
  Body.email (body request) <> Some "" ->
  NoDup (emails_of (points (db (after (update w request))))).
Proof.
  intros Hids Hnd Hne.
  destruct (update_store w request) as [E|[json E]]; [rewrite E; exact Hnd|].
  destruct (update_success_patch _ _ E) as (raw & trx1 & Ht & Hup & Hp & _).
  destruct (update_point_ok _ _ _ Hup) as (Hmap & _).
  rewrite Hp, Hmap.
  assert (Hemail : forall p,
             Point.email (apply_patch (patch_of request (new_image request)) p)
             = assign (Body.email (body request)) (Point.email p))
    by reflexivity.
  destruct (Body.email (body request)) as [e|] eqn:He.
  - assert (Hnonempty : e <> "") by (intros ->; apply Hne; reflexivity).
    destruct (update_collision_free _ _ E He Hnonempty) as [Ho|Hfree].
    + rewrite emails_of_map_same; [assumption|].
      intros p Hin. cbv beta.
      destruct (Point.id p =? Point.id raw) eqn:Eid; [|reflexivity].
      apply Z.eqb_eq in Eid.
      etransitivity; [apply Hemail|]. cbn [assign].
      assert (p = raw).
      { apply (same_id_same_row (points (db w))); try assumption.
        eapply target_stored; eassumption. }
      subst p. unfold target in Ht. rewrite Ho in Ht.
      assert (Hin' : In raw (where_email e (db w))).
      { destruct (where_email e (db w)) as [|x l]; [discriminate|].
        inversion Ht; subst. left. reflexivity. }
      apply filter_In in Hin'. destruct Hin' as [_ Hraw].
      apply option_eqb_Some in Hraw. symmetry. assumption.
    + apply emails_of_replaced with (e := e);
        [intros p; apply Hemail | assumption | assumption
        |apply where_email_none; assumption].
  - rewrite emails_of_map_same; [assumption|].
    intros p _. cbv beta. destruct (Point.id p =? Point.id raw); [|reflexivity].
    apply Hemail.
Qed.

(** X13. An update is committed exactly when it is answered 200; in every
    other outcome the committed store is the one before the request. *)
Theorem update_commits_only_when_carried_out (w : world) (request : request) :
  (trx (update w request) = Committed
   <-> exists json, answer (update w request) = Respond 200 json)
  /\ (trx (update w request) <> Committed ->
      db (after (update w request)) = db w).
Proof.
  unfold update. cbv zeta.
  repeat destruct_match;
    (split;
     [split;
      [intros H; first [discriminate H | eexists; reflexivity]
      |intros [json H]; first [reflexivity | discriminate H]]
     |intros H; first [reflexivity | exfalso; apply H; reflexivity]]).
Qed.


(** ** Listings *)

Lemma bindings_None (l : list (option Z)) :
  bindings l = None <-> In None l.
Proof.
  induction l as [|o l IH]; simpl.
  - split; [discriminate | intros []].
  - destruct o as [z|].
    + destruct (bindings l) as [zs|].
      * split; [discriminate|]. intros [H|H]; [discriminate|].
        apply IH in H. discriminate.
      * split; [|reflexivity]. intros _. right. apply IH. reflexivity.
    + split; [|reflexivity]. intros _. left. reflexivity.
Qed.

(** X14. A listing depends on the identifiers asked for only as a set: two
    [items] texts that parse to the same identifiers, in any order and with
    any repetition, get the same answer. *)
Theorem index_depends_on_item_set
        (w : world) (q : Query.t) (items' : option string) :
  (forall o, In o (parse_items (String_ (Query.items q)))
             <-> In o (parse_items (String_ items'))) ->
  index w (with_items q items') = index w q.
Proof.
  intros Hset.
  assert (Hrows : index_points (db w) (with_items q items')
                  = index_points (db w) q).
  { unfold index_points, with_items, whereIn_item_id.
    cbn [Query.city Query.uf Query.items Query.ignoreItems].
    destruct (truthy (Query.ignoreItems q)); [reflexivity|]. cbn [negb].
    destruct (bindings (parse_items (String_ (Query.items q)))) as [ids|] eqn:Hb;
      destruct (bindings (parse_items (String_ items'))) as [ids'|] eqn:Hb'.
    - assert (Hfilter :
                filter (fun r => existsb (Z.eqb (PointItem.item_id (snd r))) ids')
                       (join_point_items (db w))
                = filter (fun r => existsb (Z.eqb (PointItem.item_id (snd r))) ids)
                         (join_point_items (db w))).
      { apply filter_ext. intros r.
        apply eq_true_iff_eq. rewrite !existsb_exists. split.
        - intros (z & Hz & Hq). exists z. split; [|assumption].
          apply (bindings_In _ Hb). apply Hset. apply (bindings_In _ Hb').
          assumption.
        - intros (z & Hz & Hq). exists z. split; [|assumption].
          apply (bindings_In _ Hb'). apply Hset. apply (bindings_In _ Hb).
          assumption. }
      rewrite Hfilter. reflexivity.
    - exfalso. apply bindings_None in Hb'. apply Hset in Hb'.
      apply bindings_None in Hb'. congruence.
    - exfalso. apply bindings_None in Hb. apply Hset in Hb.
      apply bindings_None in Hb. congruence.
    - reflexivity. }
  unfold index. rewrite Hrows. reflexivity.
Qed.

(** X15. Setting [ignoreItems] only widens a listing: the store always
    answers it, and every point of the listing filtered by items is in
    it. *)
Theorem index_ignoring_items_widens
        (w : world) (q : Query.t) (rows : list Point.t) :
  index_points (db w) q = Ok rows ->
  exists all,
    index_points (db w) (ignoring_items q) = Ok all
    /\ forall p, In p rows -> In p all.
Proof.
  intros H.
  destruct (index_points_answers (db w) (ignoring_items q)) as [all Hall].
  { left. reflexivity. }
  exists all. split; [assumption|]. intros p Hin.
  apply (index_points_rows _ _ H) in Hin.
  destruct Hin as (Hp & Hcity & Huf & z & Hz & _).
  apply (index_points_rows _ _ Hall).
  repeat split; try assumption.
  exists z. split; [assumption|]. intros Hig. discriminate Hig.
Qed.

(** X16. A point that was just created is listed for its city and region
    whenever [ignoreItems] is set or the listing asks for one of the
    identifiers the point was created with. *)
Theorem created_point_is_listed
        (w : world) (request : request) (json : jsval)
        (q : Query.t) (rows : list Point.t) :
  answer (create w request) = Respond 200 json ->
  index_points (db (after (create w request))) q = Ok rows ->
  Body.city (body request) = Some (String_ (Query.city q)) ->
  Body.uf (body request) = Some (String_ (Query.uf q)) ->
  truthy (Query.ignoreItems q) = true
  \/ (exists o, In o (parse_items (String_ (Body.items (body request))))
                /\ In o (parse_items (String_ (Query.items q)))) ->
  exists p, In p rows
            /\ Point.id p = next_id (db w)
            /\ Point.email p = Body.email (body request).
Proof.
  intros E Hrows Hcity Huf Hsel.
  destruct (create_success _ _ E)
    as (email & password & f & its & ids & He & _ & _ & _ & Hits & Hb & _ & Hp & Hi).
  match type of Hp with _ = _ ++ [?p] => exists p end.
  split; [|split; [reflexivity | rewrite He; reflexivity]].
  - apply (index_points_rows _ _ Hrows).
    split; [rewrite Hp; apply in_or_app; right; left; reflexivity|].
    split; [exact Hcity|]. split; [exact Huf|].
    cbn [Point.id].
    rewrite Hits in Hsel. cbn [String_] in Hsel.
    pose proof (bindings_map_Some _ Hb) as Hparsed.
    destruct Hsel as [Hig|(o & Ho & Hq)].
    + destruct ids as [|z ids].
      * unfold parse_items in Hparsed. apply map_eq_nil in Hparsed.
        destruct (split_nonempty _ _ Hparsed).
      * exists z. split.
        -- apply In_items_linked_to. rewrite Hi. apply in_or_app. right.
           left. reflexivity.
        -- intros Hno. congruence.
    + rewrite Hparsed in Ho. apply in_map_iff in Ho.
      destruct Ho as (z & <- & Hz). exists z. split.
      * apply In_items_linked_to. rewrite Hi. apply in_or_app. right.
        apply in_map_iff. exists z. auto.
      * intros _. assumption.
Qed.

(** X17. After an update that replaced the items of its target, a listing
    filtered by items lists a row of the target exactly when the row lies in
    the city and region asked for and the listing asks for one of the new
    identifiers: the former items of the point no longer count. *)
Theorem updated_point_is_listed_by_new_items
        (w : world) (request : request) (json : jsval)
        (q : Query.t) (rows : list Point.t) :
  answer (update w request) = Respond 200 json ->
  truthy (Body.items (body request)) = true ->
  index_points (db (after (update w request))) q = Ok rows ->
  truthy (Query.ignoreItems q) = false ->
  exists rawPoint,
    target (db w) (body request) = Some rawPoint
    /\ forall p,
        Point.id p = Point.id rawPoint ->
        (In p rows <->
         In p (points (db (after (update w request))))
         /\ Point.city p = Some (String_ (Query.city q))
         /\ Point.uf p = Some (String_ (Query.uf q))
         /\ exists z,
              In (Some z) (parse_items (String_ (Body.items (body request))))
              /\ In (Some z) (parse_items (String_ (Query.items q)))).
Proof.
  intros E Hitems Hrows Hig.
  destruct (update_success _ _ E) as (raw & u & trx1 & Ht & _ & _ & _ & _ & H).
  rewrite Hitems in H. destruct H as (ids & Hb & Hpi).
  exists raw. split; [assumption|]. intros p Hid.
  assert (Hlinked : forall z,
             In z (items_linked_to (Point.id p) (db (after (update w request))))
             <-> In (Some z)
                    (parse_items (String_ (Body.items (body request))))).
  { intros z. unfold items_linked_to. rewrite Hpi, Hid, linked_after_replace.
    apply (bindings_In _ Hb). }
  rewrite (proj2 (index_points_rows _ _ Hrows) p). split.
  - intros (Hp & Hcity & Huf & z & Hz & Hsel).
    repeat split; try assumption. exists z. split; [apply Hlinked; assumption|].
    apply Hsel. assumption.
  - intros (Hp & Hcity & Huf & z & Hz & Hsel).
    repeat split; try assumption. exists z. split; [apply Hlinked; assumption|].
    intros _. assumption.
Qed.

(** X18. With [returnItems] set, the entry of a listed point is the body
    that [show] answers for that point, in a store whose identifiers are
    distinct: the serialized row together with the titles of its items. *)
Theorem show_answers_the_listed_entry
        (w : world) (q : Query.t) (rows : list Point.t) (p : Point.t) :
  NoDup (map Point.id (points (db w))) ->
  truthy (Query.returnItems q) = true ->
  index_points (db w) q = Ok rows ->
  In p rows ->
  show w (Point.id p) = respond w NoTrx 200 (decorate (db w) q p).
Proof.
  intros Hids Hret Hrows Hin.
  apply (index_points_rows _ _ Hrows) in Hin. destruct Hin as (Hp & _).
  unfold show, first_by_id, decorate. rewrite Hret.
  destruct (find (fun p0 => Point.id p0 =? Point.id p) (points (db w)))
    as [found|] eqn:Hf.
  - apply find_some in Hf. destruct Hf as [Hfound Hid].
    apply Z.eqb_eq in Hid.
    rewrite (same_id_same_row (points (db w)) found p Hids Hfound Hp Hid).
    reflexivity.
  - apply (find_none _ _ Hf) in Hp. simpl in Hp.
    rewrite Z.eqb_refl in Hp. discriminate.
Qed.


(** ** The answer of a create *)

Lemma to_json_keeps_in (k : string) (v : jsval) (gs fs : list (string * jsval)) :
  to_json (JObj gs) = JObj fs ->
  get_prop k gs = Some v ->
  v <> JUndefined ->
  get_prop k fs = Some (to_json v).
Proof.
  intros Hfs Hget Hv.
  destruct (to_json_keeps k gs Hget Hv) as (fs' & Hfs' & Hfound).
  assert (fs' = fs) by congruence. subst. assumption.
Qed.

(** X19. A create that succeeds answers with the identifier the store gave
    to the new row, with the e-mail and the file name of the request, and
    with the token issued for that identifier. *)
Theorem create_answers_with_new_id_and_token
        (w : world) (request : request) (json : jsval) :
  answer (create w request) = Respond 200 json ->
  exists fs,
    json = JObj [ ("point", JObj fs);
                  ("token", JStr (generateToken (next_id (db w)))) ]
    /\ get_prop "id" fs = Some (JNum (next_id (db w)))
    /\ get_prop "email" fs = option_map JStr (Body.email (body request))
    /\ get_prop "image" fs = option_map JStr (new_image request).
Proof.
  unfold create, new_image. cbv zeta. intros H.
  repeat destruct_match_in H.
  match type of H with
  | Respond _ ?b = _ => assert (Hj : json = b) by congruence
  end.
  subst json. clear H.
  match goal with
  | I : insert_point _ _ = Ok _ |- _ =>
      destruct (insert_point_ok _ _ I) as (-> & _)
  end.
  match goal with
  | |- context [JObj [("point", JObj ?gs); _]] =>
      destruct (@to_json_omits "password" gs) as (fs & Hfs & _)
  end.
  { cbn [set_prop String.eqb Ascii.eqb Bool.eqb].
    repeat constructor; simpl; intros E; try discriminate E; reflexivity. }
  exists fs. rewrite to_json_pair by discriminate. rewrite Hfs.
  split; [reflexivity|].
  split; [|split].
  - apply (@to_json_keeps_in "id" (JNum (next_id (db w))) _ fs Hfs);
      [reflexivity | discriminate].
  - match goal with
    | |- _ = option_map JStr (Some ?e) =>
        apply (@to_json_keeps_in "email" (JStr e) _ fs Hfs);
          [reflexivity | discriminate]
    end.
  - match goal with
    | |- _ = option_map JStr (option_map filename (Some ?f)) =>
        apply (@to_json_keeps_in "image" (JStr (filename f)) _ fs Hfs);
          [reflexivity | discriminate]
    end.
Qed.


End Further.

(** * The handlers on examples *)

#[local] Existing Instance node.

(** C1 (failing input). Two stores that differ only in the password hash of
    one point get different answers from [show] and from [index]: both
    answers carry the row's [password] column. *)
Theorem show_and_index_expose_password_hash :
  answer (show (town "$2a$10$one") 1) <> answer (show (town "$2a$10$two") 1)
  /\ answer (index (town "$2a$10$one") (in_anapolis (Some "1") None))
     <> answer (index (town "$2a$10$two") (in_anapolis (Some "1") None))
  /\ (exists fs its,
        answer (show (town "$2a$10$one") 1)
        = Respond 200 (JObj [("point", JObj fs); ("items", its)])
        /\ get_prop "password" fs = Some (JStr "$2a$10$one"))
  /\ (exists fs,
        answer (index (town "$2a$10$one") (in_anapolis (Some "1") None))
        = Respond 200 (JArr [JObj fs])
        /\ get_prop "password" fs = Some (JStr "$2a$10$one")).
Proof.
  split; [vm_compute; discriminate|].
  split; [vm_compute; discriminate|].
  split.
  - do 2 eexists. split; vm_compute; reflexivity.
  - eexists. split; vm_compute; reflexivity.
Qed.

(** C4 (failing input). A create whose association insert is rejected (an
    identifier that is not a number), or whose [items] field is missing, ends
    in an uncaught error with its transaction neither committed nor rolled
    back: the new point row stays pending in it, without association rows.
    The committed store is as before. *)
Theorem create_failure_leaves_transaction_open :
  let left_open (o : outcome) :=
    (exists e, answer o = Uncaught e)
    /\ after o = town "h"
    /\ trx o <> RolledBack
    /\ exists pending p,
         trx o = LeftOpen pending
         /\ In p (points pending)
         /\ Point.email p = Some "b@x.com"
         /\ items_linked_to (Point.id p) pending = [] in
  left_open (create (town "h")
                    (registration "b@x.com" (Some "x")
                                  (Some (mkFile "new.png"))))
  /\ left_open (create (town "h")
                       (registration "b@x.com" None
                                     (Some (mkFile "new.png")))).
Proof.
  cbv zeta. split.
  - split; [eexists; vm_compute; reflexivity|].
    split; [vm_compute; reflexivity|].
    split; [vm_compute; discriminate|].
    do 2 eexists. split; [vm_compute; reflexivity|].
    split; [right; left; reflexivity|]. split; reflexivity.
  - split; [eexists; vm_compute; reflexivity|].
    split; [vm_compute; reflexivity|].
    split; [vm_compute; discriminate|].
    do 2 eexists. split; [vm_compute; reflexivity|].
    split; [right; left; reflexivity|]. split; reflexivity.
Qed.

(** C7 (failing input). An update that brings a new image and whose
    association insert is then rejected: the old file is already deleted, the
    transaction is never committed, so the stored point still refers to the
    deleted file and the new file belongs to no point. *)
Theorem update_failure_after_release_leaves_dangling_image :
  let before := town "h" in
  let o := update before
                  (change None None (Some "x") (Some (mkFile "new.png"))) in
  ~ dangling before (market "h")
  /\ answer o = Uncaught StoreError
  /\ (exists pending, trx o = LeftOpen pending)
  /\ dangling (after o) (market "h")
  /\ orphaned (after o) "new.png".
Proof.
  cbv zeta. split.
  { intros (_ & f & Hf & Hmissing). inversion Hf; subst.
    apply Hmissing. left. reflexivity. }
  split; [vm_compute; reflexivity|].
  split; [eexists; vm_compute; reflexivity|].
  split.
  - split; [left; reflexivity|].
    exists "old.png". split; [reflexivity|].
    vm_compute. intros [H|[]]. discriminate.
  - split; [left; reflexivity|].
    intros p [<-|[]]. discriminate.
Qed.

(** C8 (failing input). A create without an uploaded file, for a free
    e-mail: no response is sent; the handler ends in an uncaught [TypeError]
    and leaves the transaction it had opened open. *)
Theorem create_without_file_throws :
  create (town "h") (registration "b@x.com" (Some "1,2") None)
  = {| after := town "h";
       answer := Uncaught (TypeError "filename");
       trx := LeftOpen (db (town "h")) |}.
Proof.
  apply (@create_without_file node _ _ "b@x.com" "secret"); reflexivity.
Qed.

(** C2 (failing input). An update of the point of [town] that gives
    [originalemail] and [items = "4"] and no other field: the object given
    to [.update(point)] has no defined field, the query builder refuses it,
    and the handler ends in that error before it reaches the items, with its
    transaction left open. The point keeps the items 1 and 2 although the
    request supplied 4. The same request with a name is carried out and
    leaves the point with item 4 alone. *)
Theorem update_with_items_only_replaces_nothing :
  target (db (town "h")) (body (items_only "4")) = Some (market "h")
  /\ truthy (Body.items (body (items_only "4"))) = true
  /\ parse_items "4" = [Some 4]
  /\ answer (update (town "h") (items_only "4")) = Uncaught EmptyUpdate
  /\ trx (update (town "h") (items_only "4")) = LeftOpen (db (town "h"))
  /\ items_linked_to 1 (db (after (update (town "h") (items_only "4"))))
     = [1; 2]
  /\ items_linked_to
       1 (db (after (update (town "h") (change None None (Some "4") None))))
     = [4].
Proof.
  repeat split; vm_compute; reflexivity.
Qed.

(** C3 (witness): a second registration under the e-mail of the stored
    point. *)
Lemma create_rejects_registered_email_witness :
  create (town "h")
         (registration "a@x.com" (Some "1,2") (Some (mkFile "new.png")))
  = {| after := town "h";
       answer :=
         Respond 400
           (JObj [ ("error", JBool true);
                   ("information",
                    JObj [ ("in", JStr "create_point");
                           ("code", JStr "EMAIL_ALREADY_REGISTERED");
                           ("message",
                            JStr "Only one point per e-mail permited.") ]) ]);
       trx := NoTrx |}.
Proof.
  apply (@create_rejects_registered_email node (town "h")
           (registration "a@x.com" (Some "1,2") (Some (mkFile "new.png")))
           "a@x.com" (market "h")).
  - reflexivity.
  - left. reflexivity.
  - reflexivity.
Defined.

(** X20 (witness): the point of [town], associated with 1 and 2, is updated
    with [items = "4"] and is then associated with 4 alone; updated without
    [items], it keeps its rows. *)
Lemma update_replaces_items_when_given_witness :
  point_items (db (after (update (town "h") (change None None None None))))
  = [PointItem.mk 1 1; PointItem.mk 2 1]
  /\ point_items
       (db (after (update (town "h") (change None None (Some "4") None))))
     = [PointItem.mk 4 1]
  /\ items_linked_to
       1 (db (after (update (town "h") (change None None (Some "4") None))))
     = [4].
Proof.
  split.
  - apply (proj1 (@update_replaces_items_when_given node (town "h")
                    (change None None None None))).
    reflexivity.
  - destruct (proj2 (@update_replaces_items_when_given node (town "h")
                       (change None None (Some "4") None)) eq_refl
                    (JObj [ ("point",
                             JObj [ ("id", JNum 1);
                                    ("image", JStr "old.png");
                                    ("name", JStr "Mercado Novo");
                                    ("email", JStr "a@x.com");
                                    ("whatsapp", JStr "62999990000");
                                    ("latitude", JStr "-16.33");
                                    ("longitude", JStr "-48.93");
                                    ("city", JStr "Anapolis");
                                    ("uf", JStr "GO");
                                    ("image_url",
                                     JStr "http://10.0.0.103:3333/uploads/images/old.png") ]);
                            ("items",
                             JArr [ JObj [ ("title", JStr "Oleo de Cozinha");
                                           ("id", JNum 4) ] ]) ])
                    eq_refl)
      as (raw & ids & Ht & _ & Hparsed & Hlinked & _).
    vm_compute in Ht. inversion Ht; subst raw.
    vm_compute in Hparsed.
    destruct ids as [|z [|z' ids]]; try discriminate Hparsed.
    inversion Hparsed; subst z.
    split; [vm_compute; reflexivity | exact Hlinked].
Defined.

(** C5 (counterexample): [items = "1,1"] gives the new point two rows for
    item 1. *)
Lemma create_duplicates_repeated_item :
  ~ one_row_per_distinct_item
      empty_world
      (registration "b@x.com" (Some "1,1") (Some (mkFile "new.png"))).
Proof.
  unfold one_row_per_distinct_item. intros H.
  specialize (H _ eq_refl). vm_compute in H.
  inversion H as [|x l Hnotin _]; subst. apply Hnotin. left. reflexivity.
Qed.

(** C5 (witness): the same request, row by row. *)
Lemma create_inserts_one_row_per_listed_item_witness :
  exists ids,
    parse_items "1,1" = map Some ids
    /\ point_items
         (db (after (create empty_world
                            (registration "b@x.com" (Some "1,1")
                                          (Some (mkFile "new.png"))))))
       = [] ++ map (fun z => PointItem.mk z 1) ids
    /\ exists p,
         points
           (db (after (create empty_world
                              (registration "b@x.com" (Some "1,1")
                                            (Some (mkFile "new.png"))))))
         = [] ++ [p]
         /\ Point.id p = 1.
Proof.
  eapply (@create_inserts_one_row_per_listed_item node empty_world
            (registration "b@x.com" (Some "1,1") (Some (mkFile "new.png")))).
  vm_compute. reflexivity.
Defined.

(** C6 (witness): an update of the point of [town] without a credential
    keeps the hash, one with the credential [pw] stores the hash of [pw]. *)
Lemma update_keeps_hash_without_credential_witness :
  map (fun p => (Point.id p, Point.password p))
      (points (db (after (update (town "h")
                                 (change None (Some "") (Some "4") None)))))
  = [(1, Some "h")]
  /\ exists rawPoint,
       target (db (town "h")) (body (change None (Some "pw") None None))
       = Some rawPoint
       /\ (exists p,
             In p (points (db (after (update (town "h")
                                             (change None (Some "pw")
                                                     None None)))))
             /\ Point.id p = Point.id rawPoint)
       /\ forall p,
            In p (points (db (after (update (town "h")
                                            (change None (Some "pw")
                                                    None None))))) ->
            Point.id p = Point.id rawPoint ->
            Point.password p = Some (bcrypt_hash "pw" 10).
Proof.
  split.
  - apply (proj1 (@update_keeps_hash_without_credential node (town "h")
                    (change None (Some "") (Some "4") None))).
    reflexivity.
  - eapply (proj2 (@update_keeps_hash_without_credential node (town "h")
                     (change None (Some "pw") None None))).
    + reflexivity.
    + discriminate.
    + vm_compute. reflexivity.
Defined.

(** C9 (counterexample): a point of the city asked for, without association
    rows, is not listed although [ignoreItems] is set. *)
Lemma index_omits_point_without_items :
  ~ listing_as_specified (db town_without_items)
                         (in_anapolis None (Some "true")).
Proof.
  intros H. specialize (H [] eq_refl (market "h")).
  destruct H as [_ H]. apply H.
  split; [left; reflexivity|].
  split; [reflexivity|]. split; [reflexivity|].
  intros Hig. discriminate Hig.
Qed.

(** C9 (witness): the listing of [town] for the items 1 and 2. *)
Lemma index_lists_matching_points_once_witness :
  index (town "h") (in_anapolis (Some "1, 2") None)
  = respond (town "h") NoTrx 200
            (JArr (map (decorate (db (town "h"))
                                 (in_anapolis (Some "1, 2") None))
                       [market "h"]))
  /\ NoDup (map (decorate (db (town "h")) (in_anapolis (Some "1, 2") None))
                [market "h"])
  /\ forall p,
      In p [market "h"] <->
      In p (points (db (town "h")))
      /\ Point.city p = Some "Anapolis"
      /\ Point.uf p = Some "GO"
      /\ exists z, In z (items_linked_to (Point.id p) (db (town "h")))
                   /\ (false = false -> In (Some z) (parse_items "1, 2")).
Proof.
  apply (@index_lists_matching_points_once node (town "h")
           (in_anapolis (Some "1, 2") None) [market "h"]).
  vm_compute. reflexivity.
Defined.

(** C10 (witness): the point without association rows and a listing with
    [ignoreItems] set. *)
Lemma index_never_lists_point_without_items_witness :
  index town_without_items (in_anapolis None (Some "true"))
  = respond town_without_items NoTrx 200 (JArr [])
  /\ ~ In (market "h") [].
Proof.
  apply (@index_never_lists_point_without_items node town_without_items
           (in_anapolis None (Some "true")) [] (market "h")).
  - reflexivity.
  - vm_compute. reflexivity.
Defined.

(** ** Witnesses of the further properties *)

(** X3 (witness): two registrations under [b@x.com]. *)
Lemma create_twice_rejects_second_witness :
  create (after (create (town "h") (registration "b@x.com" (Some "1,2") upload)))
         (registration "b@x.com" (Some "4") upload)
  = respond (after (create (town "h")
                           (registration "b@x.com" (Some "1,2") upload)))
            NoTrx 400 email_already_registered.
Proof.
  eapply @create_twice_rejects_second.
  - vm_compute. reflexivity.
  - reflexivity.
Defined.

(** X4 (witness): [show] for the point registered in [town]. *)
Lemma show_after_create_witness :
  exists image email hash,
    new_image (registration "b@x.com" (Some "1,2") upload) = Some image
    /\ Body.email (body (registration "b@x.com" (Some "1,2") upload))
       = Some email
    /\ show (after (create (town "h")
                           (registration "b@x.com" (Some "1,2") upload)))
            (next_id (db (town "h")))
       = respond (after (create (town "h")
                                (registration "b@x.com" (Some "1,2") upload)))
           NoTrx 200
           (JObj [ ("point",
                    serialize
                      {| Point.id := next_id (db (town "h"));
                         Point.image := Some image;
                         Point.name := Some "Feira";
                         Point.email := Some email;
                         Point.password := Some hash;
                         Point.whatsapp := Some "62988880000";
                         Point.latitude := Some "-16.30";
                         Point.longitude := Some "-48.90";
                         Point.city := Some "Anapolis";
                         Point.uf := Some "GO" |});
                   ("items",
                    JArr (items_of_point select_title (next_id (db (town "h")))
                            (db (after (create (town "h")
                                          (registration "b@x.com" (Some "1,2")
                                                        upload)))))) ]).
Proof.
  eapply (@show_after_create node (town "h")
            (registration "b@x.com" (Some "1,2") upload)).
  - vm_compute. reflexivity.
  - intros p [<-|[]]. discriminate.
Defined.

(** X6 (witness): the point of [town] gets a new name, a new password and a
    new image; its e-mail, city and the other fields stay. *)
Lemma update_writes_given_fields_witness :
  exists rawPoint,
    target (db (town "h")) (body (change None (Some "pw") None upload))
    = Some rawPoint
    /\ In {| Point.id := Point.id rawPoint;
             Point.image := assign (Some "new.png") (Point.image rawPoint);
             Point.name := assign (Some "Mercado Novo") (Point.name rawPoint);
             Point.email := assign None (Point.email rawPoint);
             Point.password := Some (bcrypt_hash "pw" 10);
             Point.whatsapp := assign None (Point.whatsapp rawPoint);
             Point.latitude := assign None (Point.latitude rawPoint);
             Point.longitude := assign None (Point.longitude rawPoint);
             Point.city := assign None (Point.city rawPoint);
             Point.uf := assign None (Point.uf rawPoint) |}
          (points (db (after (update (town "h")
                                     (change None (Some "pw") None upload)))))
    /\ points (db (after (update (town "h")
                                 (change None (Some "pw") None upload))))
       = map (fun p => if Point.id p =? Point.id rawPoint
                       then apply_patch
                              (patch_of (change None (Some "pw") None upload)
                                        (Some "new.png")) p
                       else p)
             (points (db (town "h"))).
Proof.
  eapply (@update_writes_given_fields node (town "h")
            (change None (Some "pw") None upload)).
  vm_compute. reflexivity.
Defined.


(** X9 (witness): the first point of [two_points] asks for the e-mail of
    the second. *)
Lemma update_rejects_registered_email_witness :
  update two_points (change (Some "b@x.com") None None upload)
  = respond two_points NoTrx 400 email_already_registered.
Proof.
  apply (@update_rejects_registered_email node two_points
           (change (Some "b@x.com") None None upload) "b@x.com" fair).
  - reflexivity.
  - discriminate.
  - discriminate.
  - right. left. reflexivity.
  - reflexivity.
Defined.

(** X10 (witness): the point of [two_points] is updated under its own
    e-mail. *)
Lemma update_keeping_email_is_not_rejected_witness :
  answer (update two_points (change (Some "a@x.com") None None None))
  <> Respond 400 (to_json email_already_registered).
Proof.
  apply (@update_keeping_email_is_not_rejected node).
  left. reflexivity.
Defined.

(** X11 (witness): one registration in [two_points]. *)
Lemma create_keeps_emails_distinct_witness :
  NoDup (emails_of
           (points (db (after (create two_points
                                      (registration "c@x.com" (Some "1")
                                                    upload)))))).
Proof.
  apply (@create_keeps_emails_distinct node).
  repeat constructor; simpl; intuition discriminate.
Defined.

(** X12 (witness): the first point of [two_points] takes a new e-mail. *)
Lemma update_keeps_emails_distinct_witness :
  NoDup (emails_of
           (points (db (after (update two_points
                                      (change (Some "c@x.com") None None
                                              None)))))).
Proof.
  apply (@update_keeps_emails_distinct node).
  - repeat constructor; simpl; intuition discriminate.
  - repeat constructor; simpl; intuition discriminate.
  - discriminate.
Defined.

(** X14 (witness): [items=1,2] and [items=2, 1,1] in [town]. *)
Lemma index_depends_on_item_set_witness :
  index (town "h") (with_items (in_anapolis (Some "1,2") None) (Some "2, 1,1"))
  = index (town "h") (in_anapolis (Some "1,2") None).
Proof.
  apply (@index_depends_on_item_set node).
  intros o. vm_compute. tauto.
Defined.

(** X15 (witness): the listing of [town] for item 1, then without the item
    filter. *)
Lemma index_ignoring_items_widens_witness :
  exists all,
    index_points (db (town "h")) (ignoring_items (in_anapolis (Some "1") None))
    = Ok all
    /\ forall p, In p [market "h"] -> In p all.
Proof.
  apply (@index_ignoring_items_widens node (town "h")
           (in_anapolis (Some "1") None) [market "h"]).
  vm_compute. reflexivity.
Defined.

(** X16 (witness): the point registered in [town] with the items 1 and 2 is
    listed under item 2. *)
Lemma created_point_is_listed_witness :
  exists p, In p [market "h"; registered "b@x.com"]
            /\ Point.id p = next_id (db (town "h"))
            /\ Point.email p
               = Body.email (body (registration "b@x.com" (Some "1,2") upload)).
Proof.
  eapply (@created_point_is_listed node (town "h")
            (registration "b@x.com" (Some "1,2") upload) _
            (in_anapolis (Some "2") None)).
  - vm_compute. reflexivity.
  - vm_compute. reflexivity.
  - reflexivity.
  - reflexivity.
  - right. exists (Some 2). split; vm_compute; tauto.
Defined.

(** X17 (witness): the point of [town], moved from the items 1 and 2 to the
    item 4, is no longer listed under item 1. *)
Lemma updated_point_is_listed_by_new_items_witness :
  exists rawPoint,
    target (db (town "h")) (body (change None None (Some "4") None))
    = Some rawPoint
    /\ forall p,
        Point.id p = Point.id rawPoint ->
        (In p [] <->
         In p (points (db (after (update (town "h")
                                         (change None None (Some "4") None)))))
         /\ Point.city p = Some "Anapolis"
         /\ Point.uf p = Some "GO"
         /\ exists z, In (Some z) (parse_items "4")
                      /\ In (Some z) (parse_items "1")).
Proof.
  eapply (@updated_point_is_listed_by_new_items node (town "h")
            (change None None (Some "4") None) _
            (in_anapolis (Some "1") None) []).
  - vm_compute. reflexivity.
  - reflexivity.
  - vm_compute. reflexivity.
  - reflexivity.
Defined.

(** X18 (witness): the listing of [town] with [returnItems] and [show] for
    its point. *)
Lemma show_answers_the_listed_entry_witness :
  show (town "h") (Point.id (market "h"))
  = respond (town "h") NoTrx 200
            (decorate (db (town "h"))
                      (Query.mk (Some "Anapolis") (Some "GO") (Some "1") None
                                (Some "1"))
                      (market "h")).
Proof.
  apply (@show_answers_the_listed_entry node (town "h")
           (Query.mk (Some "Anapolis") (Some "GO") (Some "1") None (Some "1"))
           [market "h"] (market "h")).
  - repeat constructor; simpl; intuition discriminate.
  - reflexivity.
  - vm_compute. reflexivity.
  - left. reflexivity.
Defined.

(** X19 (witness): the answer to the registration in [town]. *)
Lemma create_answers_with_new_id_and_token_witness :
  exists json,
    answer (create (town "h") (registration "b@x.com" (Some "1,2") upload))
    = Respond 200 json
    /\ exists fs,
         json = JObj [ ("point", JObj fs);
                       ("token",
                        JStr (generateToken (next_id (db (town "h"))))) ]
         /\ get_prop "id" fs = Some (JNum (next_id (db (town "h"))))
         /\ get_prop "email" fs
            = option_map JStr
                (Body.email (body (registration "b@x.com" (Some "1,2") upload)))
         /\ get_prop "image" fs
            = option_map JStr
                (new_image (registration "b@x.com" (Some "1,2") upload)).
Proof.
  eexists. split.
  - vm_compute. reflexivity.
  - eapply (@create_answers_with_new_id_and_token node (town "h")
              (registration "b@x.com" (Some "1,2") upload)).
    vm_compute. reflexivity.
Defined.
